(** * Annealing schedule engine: a shallow embedding of [calculateSchedule]

    This file models the physics-model version of [calculateSchedule] in
    [src/lib/annealingLogic.ts] (the second definition in that file, the one
    with shape and conservativeness factors, mold-dry and indefinite hold).

    JavaScript numbers are modelled as rationals [Q]: every statement below
    is about inputs where the source computes with finite numbers and does
    not divide by zero, so the rational value is the exact value the
    floating-point code approximates.  The unit conversions of
    [toggleUnits] are the exception: their results are rounded for display
    and written back into the form, so there the rounding of every
    double-precision operation is modelled ([toDouble]).  An optional
    numeric argument
    ([number | undefined]) is an [option Q]; JavaScript truthiness of a
    number is "defined and non-zero". *)

From Stdlib Require Import QArith Qabs Qround Qpower Lqa String Ascii ZArith List Lia Permutation.
Import ListNotations.

Open Scope Q_scope.

(** ** Enumerations and constant tables *)

Inductive GlassType :=
| Bullseye_COE_90
| Oceanside_Spectrum_COE_96
| Effetre_Moretti_COE_104
| Simax_Pyrex_Borosilicate_COE_33
| Satake_COE_110_120
| Custom.

Inductive ScheduleMode := anneal_only | tack_fuse | full_fuse | cast | slump.

Inductive UnitSystem := metric | imperial.

Inductive ShapeFactor := slab | uneven | hollow_deep.

Definition SHAPE_FACTORS (s : ShapeFactor) : Q :=
  match s with
  | slab => 1.0
  | uneven => 1.5
  | hollow_deep => 2.0
  end.

Inductive Conservativeness := fast | standard | cautious.

Definition CONSERVATIVENESS_FACTORS (c : Conservativeness) : Q :=
  match c with
  | fast => 0.75
  | standard => 1.0
  | cautious => 1.5
  end.

Record GlassProperties := {
  anneal_temp : option Q;
  strain_point : option Q;
  brand_factor : Q;
  slump_temp : option Q;
  tack_fuse_temp : option Q;
  full_fuse_temp : option Q;
  cast_temp : option Q
}.

Definition GLASS_LIBRARY (g : GlassType) : GlassProperties :=
  match g with
  | Bullseye_COE_90 =>
      {| anneal_temp := Some 961; strain_point := Some 900; brand_factor := 1.0;
         slump_temp := Some 1225; tack_fuse_temp := Some 1350;
         full_fuse_temp := Some 1490; cast_temp := Some 1525 |}
  | Oceanside_Spectrum_COE_96 =>
      {| anneal_temp := Some 950; strain_point := Some 850; brand_factor := 1.0;
         slump_temp := Some 1225; tack_fuse_temp := Some 1350;
         full_fuse_temp := Some 1465; cast_temp := Some 1500 |}
  | Effetre_Moretti_COE_104 =>
      {| anneal_temp := Some 968; strain_point := Some 860; brand_factor := 1.0;
         slump_temp := Some 1200; tack_fuse_temp := Some 1350;
         full_fuse_temp := Some 1450; cast_temp := Some 1480 |}
  | Simax_Pyrex_Borosilicate_COE_33 =>
      {| anneal_temp := Some 1050; strain_point := Some 950; brand_factor := 1.8;
         slump_temp := Some 1300; tack_fuse_temp := Some 1600;
         full_fuse_temp := Some 2000; cast_temp := Some 2200 |}
  | Satake_COE_110_120 =>
      {| anneal_temp := Some 896; strain_point := Some 806; brand_factor := 0.75;
         slump_temp := Some 1150; tack_fuse_temp := Some 1300;
         full_fuse_temp := Some 1400; cast_temp := Some 1450 |}
  | Custom =>
      {| anneal_temp := None; strain_point := None; brand_factor := 1.0;
         slump_temp := None; tack_fuse_temp := None;
         full_fuse_temp := None; cast_temp := None |}
  end.

Inductive SegmentType := heat | soak | cool | off | process | process_hold.

Record AnnealingSchedulePoint := {
  time : Q;
  temp : Q;
  label : option string;
  segment_type : SegmentType
}.

Record ScheduleResult := {
  points : list AnnealingSchedulePoint;
  paragon_instructions : string;
  digitry_instructions : string
}.

(** The arguments of [calculateSchedule], in the order of the source. *)
Record CalculateScheduleArgs := {
  glassType : GlassType;
  thickness : Q;
  mode : ScheduleMode;
  units : UnitSystem;
  shape : ShapeFactor;
  conservativeness : Conservativeness;
  customAnneal : option Q;
  customStrain : option Q;
  customProcessTemp : option Q;
  customProcessHoldMins : option Q;
  customProcessRamp : option Q;
  moldDryHours : option Q;
  moldDryTemp : option Q;
  processHoldIndefinite : option bool
}.

(** ** JavaScript helpers *)

(** [if (x)] on a [number | undefined]: defined and non-zero. *)
Definition truthy (o : option Q) : bool :=
  match o with
  | Some x => negb (Qeq_bool x 0)
  | None => false
  end.

(** [cond ? f(x) : d] on an optional number. *)
Definition ifTruthy (o : option Q) (f : Q -> Q) (d : Q) : Q :=
  match o with
  | Some x => if Qeq_bool x 0 then d else f x
  | None => d
  end.

(** [x ?? d] *)
Definition nullish (o : option Q) (d : Q) : Q :=
  match o with
  | Some x => x
  | None => d
  end.

Definition truthyBool (o : option bool) : bool :=
  match o with
  | Some b => b
  | None => false
  end.

(** [x < y] on numbers. *)
Definition Qlt_bool (x y : Q) : bool := negb (Qle_bool y x).

Definition Math_max (a b : Q) : Q := if Qle_bool a b then b else a.

Definition Math_pow2 (x : Q) : Q := x * x.

(** [Math.round]: round half up. *)
Definition Math_round (x : Q) : Z := Qfloor (x + (1 # 2)).

Definition isAnnealOnly (m : ScheduleMode) : bool :=
  match m with anneal_only => true | _ => false end.

Definition isCast (m : ScheduleMode) : bool :=
  match m with cast => true | _ => false end.

Definition isCustom (g : GlassType) : bool :=
  match g with Custom => true | _ => false end.

Definition toF (u : UnitSystem) (t : Q) : Q :=
  match u with metric => (t * 9 / 5) + 32 | imperial => t end.

Definition toOutputTemp (u : UnitSystem) (f : Q) : Q :=
  match u with metric => (f - 32) * 5 / 9 | imperial => f end.

Definition toRate (u : UnitSystem) (r : Q) : Q :=
  match u with metric => r * 5 / 9 | imperial => r end.

(** ** Section 1 and 2 of [calculateSchedule]: resolution and physics *)

(** [if (o) cur = f(o)] *)
Definition overrideIfTruthy (o : option Q) (f : Q -> Q) (cur : option Q) : option Q :=
  match o with
  | Some x => if Qeq_bool x 0 then cur else Some (f x)
  | None => cur
  end.

(** [if (!x) x = d] on a [number | null]. *)
Definition fallbackIfFalsy (o : option Q) (d : Q) : Q := ifTruthy o (fun x => x) d.

Definition resolveAnnealTemp (a : CalculateScheduleArgs) : Q :=
  let props := GLASS_LIBRARY (glassType a) in
  let annealTemp :=
    if isCustom (glassType a)
    then Some (ifTruthy (customAnneal a) (toF (units a)) 900)
    else overrideIfTruthy (customAnneal a) (toF (units a)) (anneal_temp props) in
  fallbackIfFalsy annealTemp 900.

Definition resolveStrainPoint (a : CalculateScheduleArgs) : Q :=
  let props := GLASS_LIBRARY (glassType a) in
  let strainPoint :=
    if isCustom (glassType a)
    then Some (ifTruthy (customStrain a) (toF (units a)) 700)
    else overrideIfTruthy (customStrain a) (toF (units a)) (strain_point props) in
  fallbackIfFalsy strainPoint 700.

(** The default chain of the [else] branch; in [anneal_only] no branch of
    the source's [if] chain fires and [processTemp] keeps [annealTemp]. *)
Definition defaultProcessTemp (props : GlassProperties) (m : ScheduleMode)
    (annealTemp : Q) : Q :=
  match m with
  | slump => nullish (slump_temp props) (annealTemp + 325)
  | tack_fuse => nullish (tack_fuse_temp props) (annealTemp + 400)
  | full_fuse => nullish (full_fuse_temp props) (annealTemp + 550)
  | cast => nullish (cast_temp props) (annealTemp + 600)
  | anneal_only => annealTemp
  end.

Definition defaultProcessHoldMins (m : ScheduleMode) : Q :=
  match m with
  | slump => 20
  | tack_fuse => 10
  | full_fuse => 15
  | cast => 30
  | anneal_only => 0
  end.

Definition resolveProcessTemp (a : CalculateScheduleArgs) (annealTemp : Q) : Q :=
  if isAnnealOnly (mode a) then annealTemp
  else ifTruthy (customProcessTemp a) (toF (units a))
         (defaultProcessTemp (GLASS_LIBRARY (glassType a)) (mode a) annealTemp).

Definition resolveProcessHoldMins (a : CalculateScheduleArgs) : Q :=
  let processHoldMins :=
    if isAnnealOnly (mode a) then 0
    else match customProcessHoldMins a with
         | Some h => h
         | None => defaultProcessHoldMins (mode a)
         end in
  (* Override hold if indefinite *)
  if truthyBool (processHoldIndefinite a) then 0 else processHoldMins.

Definition thicknessMm (u : UnitSystem) (t : Q) : Q :=
  match u with metric => t * 10 | imperial => t * 25.4 end.

Definition effectiveThicknessMm (a : CalculateScheduleArgs) : Q :=
  thicknessMm (units a) (thickness a) * SHAPE_FACTORS (shape a).

Definition annealSoakHoursOf (effectiveThicknessMm safeFactor : Q) : Q :=
  Math_max 0.5 (0.16 * effectiveThicknessMm) * safeFactor.

Definition baseRate1_C : Q := 15.
Definition baseRate2_C : Q := 27.

(** [base * Math.pow(25 / effectiveThicknessMm, 2) * brandFactor / safeFactor],
    the cooling rate in C/h before its cap. *)
Definition coolingRate_C (base effectiveThicknessMm brandFactor safeFactor : Q) : Q :=
  base * Math_pow2 (25 / effectiveThicknessMm) * brandFactor / safeFactor.

(** [if (r > cap) r = cap] *)
Definition capAt (cap r : Q) : Q := if Qlt_bool cap r then cap else r.

Definition rate1_F_of (eff brandFactor safeFactor : Q) : Q :=
  capAt 300 (coolingRate_C baseRate1_C eff brandFactor safeFactor) * 9 / 5.

Definition rate2_F_of (eff brandFactor safeFactor : Q) : Q :=
  capAt 400 (coolingRate_C baseRate2_C eff brandFactor safeFactor) * 9 / 5.

Definition unloadTemp : Q := 150.

Definition rampToProcessRateOf (a : CalculateScheduleArgs) (eff : Q) : Q :=
  let r0 := 400 in
  let r1 := if Qlt_bool 25 eff then 200 else r0 in
  let r2 := if Qlt_bool 50 eff then 100 else r1 in
  ifTruthy (customProcessRamp a)
    (fun c => match units a with metric => c * 9 / 5 | imperial => c end) r2.

(** All intermediate values of one invocation. *)
Record Resolved := {
  annealTemp : Q;
  strainPoint : Q;
  processTemp : Q;
  processHoldMins : Q;
  safeFactor : Q;
  annealSoakHours : Q;
  rate1_F : Q;
  rate2_F : Q;
  rampToProcessRate : Q
}.

Definition resolve (a : CalculateScheduleArgs) : Resolved :=
  let at_ := resolveAnnealTemp a in
  let sf := CONSERVATIVENESS_FACTORS (conservativeness a) in
  let bf := brand_factor (GLASS_LIBRARY (glassType a)) in
  let eff := effectiveThicknessMm a in
  {| annealTemp := at_;
     strainPoint := resolveStrainPoint a;
     processTemp := resolveProcessTemp a at_;
     processHoldMins := resolveProcessHoldMins a;
     safeFactor := sf;
     annealSoakHours := annealSoakHoursOf eff sf;
     rate1_F := rate1_F_of eff bf sf;
     rate2_F := rate2_F_of eff bf sf;
     rampToProcessRate := rampToProcessRateOf a eff |}.

(** ** Section 3 of [calculateSchedule]: the schedule points *)

Local Open Scope string_scope.

Definition mkPoint (t tp : Q) (l : string) (st : SegmentType) : AnnealingSchedulePoint :=
  {| time := t; temp := tp; label := Some l; segment_type := st |}.

(** [mode === 'cast' && moldDryHours && moldDryHours > 0], returning the
    hours when the mold-dry segment is emitted. *)
Definition moldDryGate (a : CalculateScheduleArgs) : option Q :=
  match moldDryHours a with
  | Some h => if isCast (mode a) && negb (Qeq_bool h 0) && Qlt_bool 0 h
              then Some h else None
  | None => None
  end.

(** [moldDryTemp ? toF(moldDryTemp) : 250] *)
Definition moldDryTempF (a : CalculateScheduleArgs) : Q :=
  ifTruthy (moldDryTemp a) (toF (units a)) 250.

Definition holdLabel (a : CalculateScheduleArgs) : string :=
  if truthyBool (processHoldIndefinite a)
  then "Process Hold (Indefinite)" else "Process Complete".

(** The firing head of a non-[anneal_only] schedule, from time [0] and
    the unload temperature: the cumulative time after it and its points. *)
Definition firingPoints (a : CalculateScheduleArgs) (r : Resolved)
    : Q * list AnnealingSchedulePoint :=
  let out := toOutputTemp (units a) in
  let '(t1, currentStartTemp, dry) :=
    match moldDryGate a with
    | Some h =>
        let mdt := moldDryTempF a in
        let tA := 0 + (mdt - unloadTemp) / rampToProcessRate r in
        let tB := tA + h in
        (tB, mdt, [mkPoint tA (out mdt) "Mold Dry Reach" heat;
                   mkPoint tB (out mdt) "Mold Dry Hold" process])
    | None => (0, unloadTemp, [])
    end in
  let t2 := t1 + (processTemp r - currentStartTemp) / rampToProcessRate r in
  let reachLabel := if isCast (mode a) then "Reach Cast" else "Process Reach" in
  let t3 := t2 + processHoldMins r / 60 in
  let t4 := t3 + (processTemp r - annealTemp r) / 1000 in
  (t4, (dry ++ [mkPoint t2 (out (processTemp r)) reachLabel process;
                mkPoint t3 (out (processTemp r)) (holdLabel a) process_hold;
                mkPoint t4 (out (annealTemp r)) "Cool to Anneal" cool])%list).

Definition schedulePoints (a : CalculateScheduleArgs) (r : Resolved)
    : list AnnealingSchedulePoint :=
  let out := toOutputTemp (units a) in
  let start := mkPoint 0 (out unloadTemp) "Start" off in
  let '(currentTime, head) :=
    if negb (isAnnealOnly (mode a)) then firingPoints a r
    else
      let t1 := 0 + (annealTemp r - unloadTemp) / rampToProcessRate r in
      (t1, [mkPoint t1 (out (annealTemp r)) "Reach Soak" heat]) in
  let t5 := currentTime + annealSoakHours r in
  let t6 := t5 + (annealTemp r - strainPoint r) / rate1_F r in
  let t7 := t6 + (strainPoint r - unloadTemp) / rate2_F r in
  (start :: head ++
    [mkPoint t5 (out (annealTemp r)) "Anneal Soak" soak;
     mkPoint t6 (out (strainPoint r)) "Strain Point" cool;
     mkPoint t7 (out unloadTemp) "Finished" cool])%list.

(** ** Strings *)

Definition nl : string := String (ascii_of_nat 10) EmptyString.

(** Decimal digits of a positive integer, most significant first. *)
Fixpoint posDigits (fuel : nat) (n : Z) (acc : string) : string :=
  match fuel with
  | O => acc
  | S f =>
      let acc' := String (ascii_of_nat (48 + Z.to_nat (Z.modulo n 10))) acc in
      if Z.eqb (Z.div n 10) 0 then acc' else posDigits f (Z.div n 10) acc'
  end.

(** [`${n}`] for an integer [n] (as returned by [Math.round]). *)
Definition ZtoString (z : Z) : string :=
  match z with
  | Z0 => "0"
  | Zpos p => posDigits (Pos.size_nat p) (Zpos p) ""
  | Zneg p => "-" ++ posDigits (Pos.size_nat p) (Zpos p) ""
  end.

Definition natToString (n : nat) : string := ZtoString (Z.of_nat n).

(** [s.padStart(2, '0')] *)
Definition padStart2 (s : string) : string :=
  match String.length s with
  | O => "00"
  | 1%nat => "0" ++ s
  | _ => s
  end.

(** [generateTimeStr]: [Math.floor(totalMins / 60)] is floor division and
    [totalMins % 60] the truncated remainder of JavaScript. *)
Definition generateTimeStr (totalMins : Z) : string :=
  let h := Z.div totalMins 60 in
  let m := Z.rem totalMins 60 in
  padStart2 (ZtoString h) ++ ":" ++ padStart2 (ZtoString m).

Definition tempUnit (u : UnitSystem) : string :=
  match u with metric => "°C" | imperial => "°F" end.

Definition rateUnit (u : UnitSystem) : string :=
  match u with metric => "°C/hr" | imperial => "°F/hr" end.

Definition shapeName (s : ShapeFactor) : string :=
  match s with slab => "slab" | uneven => "uneven" | hollow_deep => "hollow_deep" end.

(** [`${safeFactor}`]: the JavaScript rendering of the three factors. *)
Definition safeFactorString (c : Conservativeness) : string :=
  match c with fast => "0.75" | standard => "1" | cautious => "1.5" end.

(** [`${p.label}`] *)
Definition labelString (l : option string) : string :=
  match l with Some s => s | None => "undefined" end.

(** [p.label?.includes("Indefinite")] *)
Definition labelIncludesIndefinite (l : option string) : bool :=
  match l with
  | Some s => match String.index 0 "Indefinite" s with Some _ => true | None => false end
  | None => false
  end.

Definition logicLine (a : CalculateScheduleArgs) : string :=
  "Logic: Physics Model v1 (Shape: " ++ shapeName (shape a) ++ ", Safety: "
    ++ safeFactorString (conservativeness a) ++ "x)".

(** ** Section 4 of [calculateSchedule]: the instructions *)

Definition roundStr (q : Q) : string := ZtoString (Math_round q).

(** One Paragon segment block, without the blank line that follows all
    blocks but the last. *)
Definition paragonSeg (sc : nat) (title ra tu tempStr hld : string) : string :=
  let n := natToString sc in
  "SEG " ++ n ++ " (" ++ title ++ "):" ++ nl
    ++ "  RA" ++ n ++ " : " ++ ra ++ nl
    ++ "  " ++ tu ++ n ++ " : " ++ tempStr ++ nl
    ++ "  HLD" ++ n ++ ": " ++ hld.

Definition paragonInstructions (a : CalculateScheduleArgs) (r : Resolved) : string :=
  let u := units a in
  let tu := tempUnit u in
  let out := toOutputTemp u in
  let blank := nl ++ nl in
  let header :=
    "Make sure to verify these against your specific kiln manual." ++ nl
      ++ "ALL TEMPS IN " ++ tu ++ ", RATES IN " ++ rateUnit u ++ nl
      ++ logicLine a ++ blank in
  let '(segCount, body) :=
    if negb (isAnnealOnly (mode a)) then
      let '(segCount1, dry) :=
        match moldDryGate a with
        | Some h =>
            (2%nat,
             paragonSeg 1 "Mold Dry" (roundStr (toRate u (rampToProcessRate r))) tu
               (roundStr (out (moldDryTempF a)))
               (generateTimeStr (Math_round (h * 60))) ++ blank)
        | None => (1%nat, "")
        end in
      (* [sc = segCount++; sc = segCount++;] *)
      let sc := S segCount1 in
      let segCount2 := S (S segCount1) in
      let indef := truthyBool (processHoldIndefinite a) in
      let holdStr := if indef then "HOLD"
                     else generateTimeStr (Math_round (processHoldMins r)) in
      let holdNote := if indef then " (INDEFINITE HOLD)" else "" in
      let proc :=
        paragonSeg sc "Process" (roundStr (toRate u (rampToProcessRate r))) tu
          (roundStr (out (processTemp r))) (holdStr ++ holdNote) ++ blank in
      let cool :=
        paragonSeg segCount2 "Cool to Anneal" "9999" tu
          (roundStr (out (annealTemp r)))
          (generateTimeStr (Math_round (annealSoakHours r * 60))) ++ blank in
      (S segCount2, dry ++ proc ++ cool)
    else
      (2%nat,
       paragonSeg 1 "Ramp to Soak" (roundStr (toRate u (rampToProcessRate r))) tu
         (roundStr (out (annealTemp r)))
         (generateTimeStr (Math_round (annealSoakHours r * 60))) ++ blank) in
  header ++ body
    ++ paragonSeg segCount "Anneal -> Strain" (roundStr (toRate u (rate1_F r))) tu
         (roundStr (out (strainPoint r))) "00:00" ++ blank
    ++ paragonSeg (S segCount) "Strain -> Cool" (roundStr (toRate u (rate2_F r))) tu
         (roundStr (out unloadTemp)) "00:00".

(** The text of Digitry step [n] for point [p]. *)
Definition digitryStepText (u : UnitSystem) (n : nat) (p : AnnealingSchedulePoint) : string :=
  let pMins := Math_round (time p * 60) in
  let timeStr0 := generateTimeStr pMins in
  let timeStr := if labelIncludesIndefinite (label p)
                 then timeStr0 ++ " (HOLD)" else timeStr0 in
  "STEP " ++ natToString n ++ ": " ++ labelString (label p) ++ nl
    ++ "  TEMP: " ++ roundStr (temp p) ++ tempUnit u ++ nl
    ++ "  TIME: " ++ timeStr ++ nl ++ nl.

(** [schedulePoints.forEach(...)] with the mutable [digitry] text and the
    [digitryStep] counter threaded through. *)
Fixpoint digitryForEach (u : UnitSystem) (digitryStep : nat) (digitry : string)
    (ps : list AnnealingSchedulePoint) : string :=
  match ps with
  | [] => digitry
  | p :: ps' =>
      digitryForEach u (S digitryStep) (digitry ++ digitryStepText u digitryStep p) ps'
  end.

Definition digitryHeader (a : CalculateScheduleArgs) : string :=
  "NOTE: Time is CUMULATIVE from start." ++ nl ++ logicLine a ++ nl
    ++ "TEMPS IN " ++ tempUnit (units a) ++ nl ++ nl.

Definition digitryInstructions (a : CalculateScheduleArgs)
    (pts : list AnnealingSchedulePoint) : string :=
  (* [points.slice(1)] *)
  digitryForEach (units a) 1 (digitryHeader a) (tl pts).

Definition calculateSchedule (a : CalculateScheduleArgs) : ScheduleResult :=
  let r := resolve a in
  let pts := schedulePoints a r in
  {| points := pts;
     paragon_instructions := paragonInstructions a r;
     digitry_instructions := digitryInstructions a pts |}.

Close Scope string_scope.

Definition bullseyeArgs (t : Q) (m : ScheduleMode) : CalculateScheduleArgs :=
  {| glassType := Bullseye_COE_90; thickness := t; mode := m; units := imperial;
     shape := slab; conservativeness := fast;
     customAnneal := None; customStrain := None; customProcessTemp := None;
     customProcessHoldMins := None; customProcessRamp := None;
     moldDryHours := None; moldDryTemp := None; processHoldIndefinite := None |}.

Definition customArgs (m : ScheduleMode) : CalculateScheduleArgs :=
  {| glassType := Custom; thickness := 1; mode := m; units := metric;
     shape := slab; conservativeness := standard;
     customAnneal := None; customStrain := None; customProcessTemp := None;
     customProcessHoldMins := None; customProcessRamp := None;
     moldDryHours := None; moldDryTemp := None; processHoldIndefinite := None |}.

(** Bullseye, 0.25 in, anneal-only, with a strain-point override of
    1000 F, above the 961 F anneal temperature. *)
Definition strainAboveAnnealArgs : CalculateScheduleArgs :=
  {| glassType := Bullseye_COE_90; thickness := 1 # 4; mode := anneal_only;
     units := imperial; shape := slab; conservativeness := fast;
     customAnneal := None; customStrain := Some 1000; customProcessTemp := None;
     customProcessHoldMins := None; customProcessRamp := None;
     moldDryHours := None; moldDryTemp := None; processHoldIndefinite := None |}.

(** Bullseye, 0.25 in, tack fuse, with the process hold left indefinite. *)
Definition indefiniteTackArgs : CalculateScheduleArgs :=
  {| glassType := Bullseye_COE_90; thickness := 1 # 4; mode := tack_fuse;
     units := imperial; shape := slab; conservativeness := fast;
     customAnneal := None; customStrain := None; customProcessTemp := None;
     customProcessHoldMins := None; customProcessRamp := None;
     moldDryHours := None; moldDryTemp := None; processHoldIndefinite := Some true |}.

(** The temperature of the last waypoint. *)
Definition lastTemp (ps : list AnnealingSchedulePoint) : option Q :=
  match rev ps with
  | p :: _ => Some (temp p)
  | [] => None
  end.

(** The concatenation of a list of strings. *)
Definition concatStrings (ss : list string) : string := fold_right append EmptyString ss.

(** ** Argument variants used to compare invocations *)

Definition withOverrides (a : CalculateScheduleArgs)
    (ca cs cpt cph cpr : option Q) : CalculateScheduleArgs :=
  {| glassType := glassType a; thickness := thickness a; mode := mode a;
     units := units a; shape := shape a; conservativeness := conservativeness a;
     customAnneal := ca; customStrain := cs; customProcessTemp := cpt;
     customProcessHoldMins := cph; customProcessRamp := cpr;
     moldDryHours := moldDryHours a; moldDryTemp := moldDryTemp a;
     processHoldIndefinite := processHoldIndefinite a |}.

Definition withHold (a : CalculateScheduleArgs) (cph : option Q) (ind : option bool)
    : CalculateScheduleArgs :=
  {| glassType := glassType a; thickness := thickness a; mode := mode a;
     units := units a; shape := shape a; conservativeness := conservativeness a;
     customAnneal := customAnneal a; customStrain := customStrain a;
     customProcessTemp := customProcessTemp a;
     customProcessHoldMins := cph; customProcessRamp := customProcessRamp a;
     moldDryHours := moldDryHours a; moldDryTemp := moldDryTemp a;
     processHoldIndefinite := ind |}.

Definition withConservativeness (a : CalculateScheduleArgs) (c : Conservativeness)
    : CalculateScheduleArgs :=
  {| glassType := glassType a; thickness := thickness a; mode := mode a;
     units := units a; shape := shape a; conservativeness := c;
     customAnneal := customAnneal a; customStrain := customStrain a;
     customProcessTemp := customProcessTemp a;
     customProcessHoldMins := customProcessHoldMins a;
     customProcessRamp := customProcessRamp a;
     moldDryHours := moldDryHours a; moldDryTemp := moldDryTemp a;
     processHoldIndefinite := processHoldIndefinite a |}.

(** Consecutive waypoints never go back in time. *)
Fixpoint timesNondecreasing (ps : list AnnealingSchedulePoint) : Prop :=
  match ps with
  | p :: ((q :: _) as ps') => time p <= time q /\ timesNondecreasing ps'
  | _ => True
  end.

(** The Digitry steps as a list, numbered from [n]. *)
Fixpoint digitrySteps (u : UnitSystem) (n : nat) (ps : list AnnealingSchedulePoint)
    : list string :=
  match ps with
  | [] => []
  | p :: ps' => digitryStepText u n p :: digitrySteps u (S n) ps'
  end.

(** ** Further argument variants *)

Definition withThickness (a : CalculateScheduleArgs) (t : Q) : CalculateScheduleArgs :=
  {| glassType := glassType a; thickness := t; mode := mode a;
     units := units a; shape := shape a; conservativeness := conservativeness a;
     customAnneal := customAnneal a; customStrain := customStrain a;
     customProcessTemp := customProcessTemp a;
     customProcessHoldMins := customProcessHoldMins a;
     customProcessRamp := customProcessRamp a;
     moldDryHours := moldDryHours a; moldDryTemp := moldDryTemp a;
     processHoldIndefinite := processHoldIndefinite a |}.

Definition withMoldDryHours (a : CalculateScheduleArgs) (h : option Q) : CalculateScheduleArgs :=
  {| glassType := glassType a; thickness := thickness a; mode := mode a;
     units := units a; shape := shape a; conservativeness := conservativeness a;
     customAnneal := customAnneal a; customStrain := customStrain a;
     customProcessTemp := customProcessTemp a;
     customProcessHoldMins := customProcessHoldMins a;
     customProcessRamp := customProcessRamp a;
     moldDryHours := h; moldDryTemp := moldDryTemp a;
     processHoldIndefinite := processHoldIndefinite a |}.

(** The number of waypoints whose Digitry step gets the " (HOLD)" marker. *)
Definition countIndefinite (ps : list AnnealingSchedulePoint) : nat :=
  length (filter (fun p => labelIncludesIndefinite (label p)) ps).

(** The text of the Paragon header, up to the first segment block. *)
Definition paragonHeader (a : CalculateScheduleArgs) : string :=
  ("Make sure to verify these against your specific kiln manual." ++ nl
     ++ "ALL TEMPS IN " ++ tempUnit (units a) ++ ", RATES IN " ++ rateUnit (units a) ++ nl
     ++ logicLine a ++ nl ++ nl)%string.

(** The two decimal digits of a number [0 <= n < 100]. *)
Definition twoDigits (n : Z) : string :=
  String (ascii_of_nat (48 + Z.to_nat (n / 10)))
    (String (ascii_of_nat (48 + Z.to_nat (n mod 10))) EmptyString).

(** Bullseye, 0.5 in, cast, with two hours of mold drying. *)
Definition castDryArgs : CalculateScheduleArgs :=
  {| glassType := Bullseye_COE_90; thickness := 1 # 2; mode := cast;
     units := imperial; shape := slab; conservativeness := fast;
     customAnneal := None; customStrain := None; customProcessTemp := None;
     customProcessHoldMins := None; customProcessRamp := None;
     moldDryHours := Some 2; moldDryTemp := None; processHoldIndefinite := None |}.

(** ** The thickness bands of the two other versions of [calculateSchedule]

    The first version (thickness in mm) and the third version (thickness
    in cm or inches) of [calculateSchedule] in the same file share this
    table, on the thickness in inches. *)

Module Bands.

Definition thicknessInchesV1 (thicknessMm : Q) : Q := thicknessMm / 25.4.

Definition thicknessInchesV3 (u : UnitSystem) (thickness : Q) : Q :=
  match u with metric => thickness / 2.54 | imperial => thickness end.

Definition annealSoakHours (thicknessInches : Q) : Q :=
  if Qlt_bool thicknessInches 0.25 then 0.5
  else if Qlt_bool thicknessInches 0.50 then 1.0
  else if Qlt_bool thicknessInches 1.00 then 2.0
  else (180 + (thicknessInches * 60)) / 60.

Definition rate1 (thicknessInches : Q) : Q :=
  if Qlt_bool thicknessInches 0.25 then 300
  else if Qlt_bool thicknessInches 0.50 then 150
  else if Qlt_bool thicknessInches 1.00 then 90
  else 45.

(** [let rate2 = rate1 * 2; if (rate2 > 400) rate2 = 400;] *)
Definition rate2 (thicknessInches : Q) : Q := capAt 400 (rate1 thicknessInches * 2).

(** The third version only; the first one ramps at a constant 400 F/h. *)
Definition rampToProcessRateV3 (thicknessInches : Q) : Q :=
  if Qlt_bool thicknessInches 0.25 then 400
  else if Qlt_bool thicknessInches 0.50 then 300
  else if Qlt_bool thicknessInches 1.00 then 150
  else 100.

End Bands.

(** ** [calculateSchedule] as [App.tsx] calls it: positional arguments,
    without the last one ([processHoldIndefinite] is [undefined]). *)

Definition calculateScheduleCall (g : GlassType) (t : Q) (m : ScheduleMode)
    (u : UnitSystem) (s : ShapeFactor) (c : Conservativeness)
    (ca cs cpt cph cpr mdh mdt : option Q) : CalculateScheduleArgs :=
  {| glassType := g; thickness := t; mode := m; units := u; shape := s;
     conservativeness := c; customAnneal := ca; customStrain := cs;
     customProcessTemp := cpt; customProcessHoldMins := cph;
     customProcessRamp := cpr; moldDryHours := mdh; moldDryTemp := mdt;
     processHoldIndefinite := None |}.

(** ** IEEE 754 double precision *)

(** [floor(log2 x)] for [0 < x]: it is [log2 n - log2 d] or one less. *)
Definition flog2 (x : Q) : Z :=
  let e0 := (Z.log2 (Qnum x) - Z.log2 (Zpos (Qden x)))%Z in
  if Qle_bool (2 ^ e0) x then e0 else (e0 - 1)%Z.

(** Rounding to the nearest integer, ties to even. *)
Definition roundHalfEven (y : Q) : Z :=
  let f := Qfloor y in
  let r := y - inject_Z f in
  if Qlt_bool r (1 # 2) then f
  else if Qlt_bool (1 # 2) r then (f + 1)%Z
  else if Z.even f then f else (f + 1)%Z.

(** The double nearest to [x], ties to even: 53 significant bits, and the
    subnormal quantum [2^-1074] below [2^-1022].  This is the value of a
    decimal literal, of [parseFloat] on a decimal string and of each
    arithmetic operation on doubles.  Magnitudes are below [2^1024]: there
    is no infinity. *)
Definition toDouble (x : Q) : Q :=
  if Qeq_bool x 0 then 0
  else
    let ax := Qabs x in
    let s := 2 ^ Z.max (flog2 ax - 52) (-1074) in
    let m := inject_Z (roundHalfEven (ax / s)) * s in
    if Qlt_bool x 0 then - m else m.

(** [2^-53], the relative rounding error of a double. *)
Definition ulp53 : Q := 1 # 9007199254740992.

(** ** The form of [App.tsx]: [handleCalculate] and [toggleUnits] *)

Module App.

(** A form field.  Every field the code parses is an
    [<input type="number">], whose value is either the empty string or a
    valid floating-point number (the browser sanitises anything else to
    ""), and [toggleUnits] only writes back [Math.round(..).toString()] or
    [toFixed] strings.  So [!s] is [FEmpty] and [parseFloat(s)] is [NaN]
    exactly on [FEmpty]; the [isNaN(v)] branches of the two converters
    cannot be taken. *)
Inductive Field := FEmpty | FNum (v : Q).

(** [if (s)] on a string. *)
Definition truthyStr (f : Field) : bool :=
  match f with FEmpty => false | FNum _ => true end.

(** [parseFloat(s)], with [NaN] as [None]. *)
Definition parseFloat (f : Field) : option Q :=
  match f with FEmpty => None | FNum v => Some v end.

(** The React state of [App]. *)
Record State := {
  glassType : GlassType;
  scheduleMode : ScheduleMode;
  thickness : Field;
  units : UnitSystem;
  shape : ShapeFactor;
  conservativeness : Conservativeness;
  customAnneal : Field;
  customStrain : Field;
  processTemp : Field;
  processHold : Field;
  processRamp : Field;
  moldDryHours : Field;
  moldDryTemp : Field;
  result : option ScheduleResult;
  chartVersion : nat
}.

(** [setResult(res); setChartVersion(v => v + 1);] *)
Definition setResult (s : State) (res : ScheduleResult) : State :=
  {| glassType := glassType s; scheduleMode := scheduleMode s;
     thickness := thickness s; units := units s; shape := shape s;
     conservativeness := conservativeness s;
     customAnneal := customAnneal s; customStrain := customStrain s;
     processTemp := processTemp s; processHold := processHold s;
     processRamp := processRamp s; moldDryHours := moldDryHours s;
     moldDryTemp := moldDryTemp s; result := Some res;
     chartVersion := S (chartVersion s) |}.

(** The validation and the arguments of [handleCalculate]; [None] is an
    [alert(..)] followed by [return]. *)
Definition handleCalculateArgs (s : State) : option CalculateScheduleArgs :=
  match parseFloat (thickness s) with
  | None => None
  | Some thickVal =>
      let custom := isCustom (glassType s) in
      let cAnneal :=
        if custom then parseFloat (customAnneal s)
        else if truthyStr (customAnneal s) then parseFloat (customAnneal s) else None in
      let cStrain :=
        if custom then parseFloat (customStrain s)
        else if truthyStr (customStrain s) then parseFloat (customStrain s) else None in
      (* [if (isNaN(cAnneal) || isNaN(cStrain))] in the Custom branch *)
      let invalidCustom :=
        custom && (match cAnneal with None => true | Some _ => false end
                   || match cStrain with None => true | Some _ => false end) in
      if invalidCustom then None
      else
        let firing := negb (isAnnealOnly (scheduleMode s)) in
        let parsedIf (f : Field) := if firing && truthyStr f then parseFloat f else None in
        let dry := firing && isCast (scheduleMode s) && truthyStr (moldDryHours s) in
        Some (calculateScheduleCall (glassType s) thickVal (scheduleMode s) (units s)
                (shape s) (conservativeness s) cAnneal cStrain
                (parsedIf (processTemp s)) (parsedIf (processHold s))
                (parsedIf (processRamp s))
                (if dry then parseFloat (moldDryHours s) else None)
                (if dry && truthyStr (moldDryTemp s) then parseFloat (moldDryTemp s) else None))
  end.

Definition handleCalculate (s : State) : State :=
  match handleCalculateArgs s with
  | None => s
  | Some args => setResult s (calculateSchedule args)
  end.

(** [const toC = (f: number) => (f - 32) * 5 / 9;] in doubles. *)
Definition toC (f : Q) : Q := toDouble (toDouble (toDouble (f - 32) * 5) / 9).
(** [const toF = (c: number) => (c * 9 / 5) + 32;] in doubles. *)
Definition toF (c : Q) : Q := toDouble (toDouble (toDouble (c * 9) / 5) + 32).

(** [x.toFixed(f)] on a double [x], as the decimal value of the string:
    the multiple [n / 10^f] nearest to [|x|], the larger one on a tie,
    with the sign of [x]; from [10^21] on, [toFixed] prints [x] itself (a
    decimal that [parseFloat] reads back as [x]). *)
Definition toFixed (f : nat) (x : Q) : Q :=
  let s := Qlt_bool x 0 in
  let ax := if s then - x else x in
  if Qle_bool (inject_Z (10 ^ 21)) ax then x
  else
    let p := inject_Z (10 ^ Z.of_nat f) in
    let m := inject_Z (Qfloor (ax * p + (1 # 2))) / p in
    if s then - m else m.

(** [parseFloat(valStr)] is the double [toDouble v]; [Math.round] is
    exact on it, and [.toString()] prints the integer (exactly below
    [2^53]; above, a decimal that reads back as the same double). *)
Definition convertTempField (newUnits : UnitSystem) (valStr : Field) : Field :=
  match valStr with
  | FEmpty => FEmpty
  | FNum v =>
      match newUnits with
      | metric => FNum (inject_Z (Math_round (toC (toDouble v))))
      | imperial => FNum (inject_Z (Math_round (toF (toDouble v))))
      end
  end.

(** [Math.round(v * 5 / 9)] and [Math.round(v * 9 / 5)] in doubles. *)
Definition convertRateField (newUnits : UnitSystem) (valStr : Field) : Field :=
  match valStr with
  | FEmpty => FEmpty
  | FNum v =>
      match newUnits with
      | metric => FNum (inject_Z (Math_round (toDouble (toDouble (toDouble v * 5) / 9))))
      | imperial => FNum (inject_Z (Math_round (toDouble (toDouble (toDouble v * 9) / 5))))
      end
  end.

(** [units === 'imperial' ? 'metric' : 'imperial'] *)
Definition otherUnits (u : UnitSystem) : UnitSystem :=
  match u with imperial => metric | metric => imperial end.

(** Step 1 of [toggleUnits]: the thickness field in the new units,
    [(val * 2.54).toFixed(2)] or [(val / 2.54).toFixed(3)] with [val] the
    parsed double, the literal [2.54] a double and the product or quotient
    rounded to a double before [toFixed]. *)
Definition convertThickness (newUnits : UnitSystem) (thickness : Field) : Field :=
  match parseFloat thickness with
  | Some val =>
      match newUnits with
      | metric => FNum (toFixed 2 (toDouble (toDouble val * toDouble 2.54)))
      | imperial => FNum (toFixed 3 (toDouble (toDouble val / toDouble 2.54)))
      end
  | None => thickness
  end.

Definition toggleUnits (s : State) : State :=
  let newUnits := otherUnits (units s) in
  let newThickness := convertThickness newUnits (thickness s) in
  let newCustomAnneal := convertTempField newUnits (customAnneal s) in
  let newCustomStrain := convertTempField newUnits (customStrain s) in
  let newProcessTemp := convertTempField newUnits (processTemp s) in
  let newMoldDryTemp := convertTempField newUnits (moldDryTemp s) in
  let newProcessRamp := convertRateField newUnits (processRamp s) in
  let s1 :=
    {| glassType := glassType s; scheduleMode := scheduleMode s;
       thickness := newThickness; units := newUnits; shape := shape s;
       conservativeness := conservativeness s;
       customAnneal := newCustomAnneal; customStrain := newCustomStrain;
       processTemp := newProcessTemp; processHold := processHold s;
       processRamp := newProcessRamp; moldDryHours := moldDryHours s;
       moldDryTemp := newMoldDryTemp; result := result s;
       chartVersion := chartVersion s |} in
  match result s with
  | None => s1
  | Some _ =>
      match parseFloat newThickness with
      | None => s1
      | Some thickVal =>
          let custom := isCustom (glassType s) in
          let cAnneal :=
            if custom then parseFloat newCustomAnneal
            else if truthyStr newCustomAnneal then parseFloat newCustomAnneal else None in
          let cStrain :=
            if custom then parseFloat newCustomStrain
            else if truthyStr newCustomStrain then parseFloat newCustomStrain else None in
          let firing := negb (isAnnealOnly (scheduleMode s)) in
          let parsedIf (f : Field) := if firing && truthyStr f then parseFloat f else None in
          let dry := firing && isCast (scheduleMode s) && truthyStr (moldDryHours s) in
          setResult s1
            (calculateSchedule
               (calculateScheduleCall (glassType s) thickVal (scheduleMode s) newUnits
                  (shape s) (conservativeness s) cAnneal cStrain
                  (parsedIf newProcessTemp) (parsedIf (processHold s))
                  (parsedIf newProcessRamp)
                  (if dry then parseFloat (moldDryHours s) else None)
                  (if dry && truthyStr newMoldDryTemp then parseFloat newMoldDryTemp else None)))
      end
  end.

(** The state of the first render. *)
Definition initialState : State :=
  {| glassType := Bullseye_COE_90; scheduleMode := anneal_only;
     thickness := FNum 0.25; units := imperial; shape := slab;
     conservativeness := fast; customAnneal := FEmpty; customStrain := FEmpty;
     processTemp := FEmpty; processHold := FEmpty; processRamp := FEmpty;
     moldDryHours := FEmpty; moldDryTemp := FEmpty; result := None;
     chartVersion := 0 |}.

(** Two fields holding the same number. *)
Definition fieldEqv (f g : Field) : Prop :=
  match f, g with
  | FEmpty, FEmpty => True
  | FNum v, FNum w => v == w
  | _, _ => False
  end.

(** A field holding an integer, as [toggleUnits] writes them. *)
Definition integralField (f : Field) : Prop :=
  match f with FEmpty => True | FNum v => exists z, v == inject_Z z end.

(** Two fields within [d] of each other. *)
Definition fieldWithin (d : Q) (f g : Field) : Prop :=
  match f, g with
  | FEmpty, FEmpty => True
  | FNum v, FNum w => Qabs (v - w) <= d
  | _, _ => False
  end.

(** A field holding a number of magnitude below [b]. *)
Definition boundedField (b : Q) (f : Field) : Prop :=
  match f with FEmpty => True | FNum v => Qabs v < b end.

(** The fields [toggleUnits] converts all hold numbers below [b]. *)
Definition fieldsBelow (b : Q) (s : State) : Prop :=
  boundedField b (thickness s) /\ boundedField b (customAnneal s) /\
  boundedField b (customStrain s) /\ boundedField b (processTemp s) /\
  boundedField b (processRamp s) /\ boundedField b (moldDryTemp s).

End App.

(** ** The trace grouping of [AnnealingChart] *)

Module Chart.

Local Open Scope string_scope.

Definition getColor (type : SegmentType) : string :=
  match type with
  | cool => "#3b82f6"
  | process_hold => "#eab308"
  | _ => "#ef4444"
  end.

Definition getLabel (type : SegmentType) : string :=
  match type with
  | cool => "Cooling"
  | process_hold => "Indefinite Hold"
  | _ => "Heating / Soaking"
  end.

(** The fields of a Plotly trace that depend on the points ([type],
    the line width and the marker size are constants). *)
Record Trace := {
  x : list Q;
  y : list Q;
  mode : string;
  name : string;
  color : string;
  opacity : list Q;
  showlegend : bool;
  legendgroup : string
}.

(** [legendsShown.has(name)] *)
Definition has (legendsShown : list string) (n : string) : bool :=
  existsb (String.eqb n) legendsShown.

(** [points[i]], in range wherever the source indexes. *)
Definition pointAt (points : list AnnealingSchedulePoint) (i : nat) : AnnealingSchedulePoint :=
  nth i points {| time := 0; temp := 0; label := None; segment_type := off |}.

Definition isProcessHold (t : SegmentType) : bool :=
  match t with process_hold => true | _ => false end.

(** [indices.map((idx, i) => ...)] *)
Fixpoint markerOpacities (points : list AnnealingSchedulePoint) (legendsShown : list string)
    (n : string) (i : nat) (indices : list nat) : list Q :=
  match indices with
  | [] => []
  | idx :: rest =>
      let o :=
        if String.eqb n "Indefinite Hold" then 1
        else if Nat.eqb i 0 && negb (has legendsShown n) then 1
        else if isProcessHold (segment_type (pointAt points idx)) then 0
        else 1 in
      o :: markerOpacities points legendsShown n (S i) rest
  end.

(** [pushTrace]: the traces and the legend set after the push. *)
Definition pushTrace (points : list AnnealingSchedulePoint)
    (traces : list Trace) (legendsShown : list string)
    (xs ys : list Q) (indices : list nat) (c n : string) : list Trace * list string :=
  let isIndefiniteTrace := String.eqb n "Indefinite Hold" in
  let t := {| x := xs; y := ys;
              mode := if isIndefiniteTrace then "markers" else "lines+markers";
              name := n; color := c;
              opacity := markerOpacities points legendsShown n 0 indices;
              showlegend := negb (has legendsShown n);
              legendgroup := n |} in
  ((traces ++ [t])%list, n :: legendsShown).

(** The mutable variables of the loop. *)
Record LoopState := {
  traces : list Trace;
  legendsShown : list string;
  currentX : list Q;
  currentY : list Q;
  currentIndices : list nat;
  currentColor : string;
  currentName : string
}.

(** One iteration [i] of [for (let i = 0; i < points.length - 1; i++)]. *)
Definition loopBody (points : list AnnealingSchedulePoint) (st : LoopState) (i : nat) : LoopState :=
  let nextPoint := pointAt points (S i) in
  let nextType := segment_type nextPoint in
  let nextColor := getColor nextType in
  let nextName := getLabel nextType in
  if String.eqb nextName (currentName st) then
    {| traces := traces st; legendsShown := legendsShown st;
       currentX := (currentX st ++ [time nextPoint])%list;
       currentY := (currentY st ++ [temp nextPoint])%list;
       currentIndices := (currentIndices st ++ [S i])%list;
       currentColor := currentColor st; currentName := currentName st |}
  else
    let '(tr, ls) := pushTrace points (traces st) (legendsShown st)
                       (currentX st) (currentY st) (currentIndices st)
                       (currentColor st) (currentName st) in
    {| traces := tr; legendsShown := ls;
       currentX := [time (pointAt points i); time nextPoint];
       currentY := [temp (pointAt points i); temp nextPoint];
       currentIndices := [i; S i];
       currentColor := nextColor; currentName := nextName |}.

(** The traces in the order they are pushed. *)
Definition unsortedTraces (points : list AnnealingSchedulePoint) : list Trace :=
  match points with
  | [] => []
  | p0 :: _ =>
      let currentType :=
        if Nat.ltb 1 (length points) then segment_type (pointAt points 1) else off in
      let st0 := {| traces := []; legendsShown := [];
                    currentX := [time p0]; currentY := [temp p0];
                    currentIndices := [0%nat];
                    currentColor := getColor currentType;
                    currentName := getLabel currentType |} in
      let st := fold_left (loopBody points) (seq 0 (length points - 1)) st0 in
      fst (pushTrace points (traces st) (legendsShown st) (currentX st) (currentY st)
             (currentIndices st) (currentColor st) (currentName st))
  end.

(** The comparator of [traces.sort]. *)
Definition indefiniteLast (a b : Trace) : Z :=
  if String.eqb (name a) "Indefinite Hold" then 1
  else if String.eqb (name b) "Indefinite Hold" then -1
  else 0.

(** [Array.prototype.sort] is stable; on a consistent comparator every
    stable sort gives this insertion sort's order. *)
Fixpoint insertBy {A : Type} (cmp : A -> A -> Z) (a : A) (l : list A) : list A :=
  match l with
  | [] => [a]
  | b :: l' => if Z.ltb (cmp a b) 0 then a :: l else b :: insertBy cmp a l'
  end.

Definition sortBy {A : Type} (cmp : A -> A -> Z) (l : list A) : list A :=
  fold_left (fun acc a => insertBy cmp a acc) l [].

(** The [traces] handed to [Plot]. *)
Definition chartTraces (points : list AnnealingSchedulePoint) : list Trace :=
  sortBy indefiniteLast (unsortedTraces points).

(** The polyline of a trace. *)
Definition polyline (t : Trace) : list (Q * Q) := combine (x t) (y t).

(** The polylines joined where the next one starts: the first one whole,
    then each next one without its first point. *)
Definition joinPolylines (ls : list (list (Q * Q))) : list (Q * Q) :=
  match ls with
  | [] => []
  | l :: ls' => (l ++ concat (map (@tl _) ls'))%list
  end.

(** Each polyline starts where the previous one ends. *)
Fixpoint chained (ls : list (list (Q * Q))) : Prop :=
  match ls with
  | l :: ((m :: _) as ls') => last l (0, 0) = hd (0, 0) m /\ chained ls'
  | _ => True
  end.

End Chart.

(** ** Runs of the form

    No point of the displayed result is labelled "Indefinite". *)
Definition noIndefinite (s : App.State) : Prop :=
  match App.result s with
  | None => True
  | Some r => countIndefinite (points r) = 0%nat
  end.

(** One event of [App]: the Calculate button, the units toggle, or an
    edit of the form (the [onChange] of an input or select sets its form
    field only, never [units], [result] nor [chartVersion]). *)
Inductive step : App.State -> App.State -> Prop :=
| step_calculate (s : App.State) : step s (App.handleCalculate s)
| step_toggle (s : App.State) : step s (App.toggleUnits s)
| step_edit (s s' : App.State) :
    App.units s' = App.units s -> App.result s' = App.result s ->
    App.chartVersion s' = App.chartVersion s -> step s s'.

(** The states reachable from the first render. *)
Inductive reachable : App.State -> Prop :=
| reach_init : reachable App.initialState
| reach_step (s s' : App.State) : reachable s -> step s s' -> reachable s'.

(** ** Views of the chart traces used by the properties

    Name, legend flag and drawing mode of a trace. *)
Definition traceSummary (t : Chart.Trace) : string * bool * string :=
  (Chart.name t, Chart.showlegend t, Chart.mode t).

(** Every marker of every trace drawn at opacity 1. *)
Definition allOpaque (ts : list Chart.Trace) : Prop :=
  Forall (fun t => Forall (fun o => o = 1) (Chart.opacity t)) ts.

(** The traces of an anneal-only schedule. *)
Definition annealTraces : list (string * bool * string) :=
  [("Heating / Soaking", true, "lines+markers"); ("Cooling", true, "lines+markers")]%string.

(** The traces of a firing schedule. *)
Definition firingTraces : list (string * bool * string) :=
  [("Heating / Soaking", true, "lines+markers"); ("Cooling", true, "lines+markers");
   ("Heating / Soaking", false, "lines+markers"); ("Cooling", false, "lines+markers");
   ("Indefinite Hold", true, "markers")]%string.

(** The plotted coordinates of a point. *)
Definition pointXY (p : AnnealingSchedulePoint) : Q * Q := (time p, temp p).

(** The points [j..k]. *)
Definition pointSlice (ps : list AnnealingSchedulePoint) (j k : nat) : list AnnealingSchedulePoint :=
  firstn (S k - j) (skipn j ps).

(** Invariant of the trace loop after iteration [k - 1]: the current
    trace holds the points [j..k], and the pushed traces followed by it
    are chained and cover the points [0..k]. *)
Definition chainInv (ps : list AnnealingSchedulePoint) (k : nat) (st : Chart.LoopState) : Prop :=
  exists j, (j <= k)%nat /\
    Chart.currentX st = map time (pointSlice ps j k) /\
    Chart.currentY st = map temp (pointSlice ps j k) /\
    Chart.chained (map Chart.polyline (Chart.traces st) ++ [map pointXY (pointSlice ps j k)]) /\
    Chart.joinPolylines (map Chart.polyline (Chart.traces st) ++ [map pointXY (pointSlice ps j k)]) =
      map pointXY (firstn (S k) ps).

(** Each trace shows its legend exactly when no earlier trace, nor a
    name in [seen], has its name. *)
Fixpoint legendOK (seen : list string) (ts : list Chart.Trace) : Prop :=
  match ts with
  | [] => True
  | t :: ts' => Chart.showlegend t = negb (Chart.has seen (Chart.name t)) /\
                legendOK (Chart.name t :: seen) ts'
  end.

(** Invariant of the trace loop for the legend set. *)
Definition legendInv (st : Chart.LoopState) : Prop :=
  legendOK [] (Chart.traces st) /\ Chart.legendsShown st = rev (map Chart.name (Chart.traces st)).

(** ** Example form states *)

(** A full-fuse form in metric units, as a toggle from imperial leaves it. *)
Definition metricForm : App.State :=
  {| App.glassType := Bullseye_COE_90; App.scheduleMode := full_fuse;
     App.thickness := App.FNum 0.64; App.units := metric; App.shape := slab;
     App.conservativeness := fast; App.customAnneal := App.FEmpty;
     App.customStrain := App.FEmpty; App.processTemp := App.FNum 804;
     App.processHold := App.FNum 10; App.processRamp := App.FNum 167;
     App.moldDryHours := App.FEmpty; App.moldDryTemp := App.FEmpty;
     App.result := None; App.chartVersion := 0 |}.

(** A cast form with a mold dry in imperial units. *)
Definition imperialForm : App.State :=
  {| App.glassType := Bullseye_COE_90; App.scheduleMode := cast;
     App.thickness := App.FNum 0.25; App.units := imperial; App.shape := slab;
     App.conservativeness := fast; App.customAnneal := App.FEmpty;
     App.customStrain := App.FEmpty; App.processTemp := App.FNum 1480;
     App.processHold := App.FEmpty; App.processRamp := App.FNum 300;
     App.moldDryHours := App.FNum 2; App.moldDryTemp := App.FNum 221;
     App.result := None; App.chartVersion := 0 |}.

(** A Custom-glass form whose anneal field has been cleared after a
    calculation. *)
Definition customForm : App.State :=
  {| App.glassType := Custom; App.scheduleMode := anneal_only;
     App.thickness := App.FNum 0.25; App.units := imperial; App.shape := slab;
     App.conservativeness := fast; App.customAnneal := App.FEmpty;
     App.customStrain := App.FNum 900; App.processTemp := App.FEmpty;
     App.processHold := App.FEmpty; App.processRamp := App.FEmpty;
     App.moldDryHours := App.FEmpty; App.moldDryTemp := App.FEmpty;
     App.result := Some (calculateSchedule (bullseyeArgs (1 # 4) anneal_only));
     App.chartVersion := 1 |}.

(** The first-render form with a thickness of -1 in. *)
Definition negativeThicknessForm : App.State :=
  {| App.glassType := Bullseye_COE_90; App.scheduleMode := anneal_only;
     App.thickness := App.FNum (-1); App.units := imperial; App.shape := slab;
     App.conservativeness := fast; App.customAnneal := App.FEmpty;
     App.customStrain := App.FEmpty; App.processTemp := App.FEmpty;
     App.processHold := App.FEmpty; App.processRamp := App.FEmpty;
     App.moldDryHours := App.FEmpty; App.moldDryTemp := App.FEmpty;
     App.result := None; App.chartVersion := 0 |}.

(** A form whose thickness field has been cleared after a calculation. *)
Definition clearedThicknessForm : App.State :=
  {| App.glassType := Bullseye_COE_90; App.scheduleMode := anneal_only;
     App.thickness := App.FEmpty; App.units := imperial; App.shape := slab;
     App.conservativeness := fast; App.customAnneal := App.FEmpty;
     App.customStrain := App.FEmpty; App.processTemp := App.FEmpty;
     App.processHold := App.FEmpty; App.processRamp := App.FEmpty;
     App.moldDryHours := App.FEmpty; App.moldDryTemp := App.FEmpty;
     App.result := Some (calculateSchedule (bullseyeArgs (1 # 4) anneal_only));
     App.chartVersion := 1 |}.

(** Splits a list of points by its known segment types. *)
Ltac split_points H :=
  match type of H with
  | map segment_type ?l = [] => destruct l; [clear H | discriminate H]
  | map segment_type ?l = _ :: _ =>
      let p := fresh "p" in let l' := fresh "l" in let Ht := fresh "Ht" in
      destruct l as [|p l']; [discriminate H|];
      cbn [map] in H; injection H as Ht H;
      destruct p; cbn [segment_type] in Ht; subst; split_points H
  end.

(** * Properties *)

(** ** Arithmetic facts about the model *)

Lemma brand_factor_pos (g : GlassType) : 0 < brand_factor (GLASS_LIBRARY g).
Proof. destruct g; reflexivity. Qed.

Lemma safeFactor_pos (c : Conservativeness) : 0 < CONSERVATIVENESS_FACTORS c.
Proof. destruct c; reflexivity. Qed.

Lemma effectiveThicknessMm_pos (a : CalculateScheduleArgs) :
  0 < thickness a -> 0 < effectiveThicknessMm a.
Proof.
  intros Ht. unfold effectiveThicknessMm, thicknessMm.
  apply Qmult_lt_0_compat; [|destruct (shape a); reflexivity].
  destruct (units a); apply Qmult_lt_0_compat; auto; reflexivity.
Qed.

Lemma square_pos (x : Q) : 0 < x -> 0 < Math_pow2 x.
Proof. intros H. unfold Math_pow2. apply Qmult_lt_0_compat; assumption. Qed.

Lemma coolingRate_C_pos (base eff bf sf : Q) :
  0 < base -> 0 < eff -> 0 < bf -> 0 < sf -> 0 < coolingRate_C base eff bf sf.
Proof.
  intros Hb He Hf Hs. unfold coolingRate_C, Qdiv.
  apply Qmult_lt_0_compat; [|apply Qinv_lt_0_compat; assumption].
  apply Qmult_lt_0_compat; [|assumption].
  apply Qmult_lt_0_compat; [assumption|].
  apply square_pos. apply Qmult_lt_0_compat; [reflexivity|].
  apply Qinv_lt_0_compat; assumption.
Qed.

Lemma capAt_pos (cap x : Q) : 0 < cap -> 0 < x -> 0 < capAt cap x.
Proof. intros. unfold capAt. destruct (Qlt_bool cap x); assumption. Qed.

Lemma Qlt_bool_iff (x y : Q) : Qlt_bool x y = true <-> x < y.
Proof.
  unfold Qlt_bool. rewrite Bool.negb_true_iff.
  split; intros H.
  - apply Qnot_le_lt. intros H'. apply Qle_bool_iff in H'. congruence.
  - destruct (Qle_bool y x) eqn:E; [|reflexivity].
    apply Qle_bool_iff in E. exfalso. apply (Qlt_not_le x y); assumption.
Qed.

Lemma Qlt_bool_false_iff (x y : Q) : Qlt_bool x y = false <-> y <= x.
Proof.
  split; intros H.
  - apply Qnot_lt_le. intros C. apply Qlt_bool_iff in C. congruence.
  - destruct (Qlt_bool x y) eqn:E; [|reflexivity].
    apply Qlt_bool_iff in E. exfalso. apply (Qlt_not_le x y); assumption.
Qed.

Lemma capAt_mono (cap x y : Q) : x <= y -> capAt cap x <= capAt cap y.
Proof.
  intros H. unfold capAt.
  destruct (Qlt_bool cap x) eqn:Ex, (Qlt_bool cap y) eqn:Ey.
  - apply Qle_refl.
  - apply Qlt_bool_iff in Ex. apply Qlt_bool_false_iff in Ey.
    exfalso. apply (Qlt_not_le cap y); [apply Qlt_le_trans with x|]; assumption.
  - apply Qlt_bool_false_iff in Ex. assumption.
  - assumption.
Qed.

Lemma Qpos_neq0 (x : Q) : 0 < x -> ~ x == 0.
Proof. intros H E. rewrite E in H. apply (Qlt_irrefl 0). assumption. Qed.

(** Rate 1 and Rate 2 of an invocation are the capped values of
    [coolingRate_C] at its effective thickness. *)
Lemma rates_of_resolve (a : CalculateScheduleArgs) :
  let bf := brand_factor (GLASS_LIBRARY (glassType a)) in
  let sf := CONSERVATIVENESS_FACTORS (conservativeness a) in
  rate1_F (resolve a) = capAt 300 (coolingRate_C baseRate1_C (effectiveThicknessMm a) bf sf) * 9 / 5 /\
  rate2_F (resolve a) = capAt 400 (coolingRate_C baseRate2_C (effectiveThicknessMm a) bf sf) * 9 / 5.
Proof. split; reflexivity. Qed.

(** ** C1: the inverse-square law of the cooling rates *)

(** C1. Before the caps, Rate 1 and Rate 2 (in C/h) scale as the inverse
    square of the effective thickness: at [2 t] they are a quarter of their
    value at [t], and at [t] they are their value at the 25 mm reference
    thickness times [(25 / t)^2]; for every glass and conservativeness. *)
Theorem C1_rates_inverse_square (g : GlassType) (c : Conservativeness) (t : Q)
    (Ht : 0 < t) :
  let bf := brand_factor (GLASS_LIBRARY g) in
  let sf := CONSERVATIVENESS_FACTORS c in
  coolingRate_C baseRate1_C (2 * t) bf sf == coolingRate_C baseRate1_C t bf sf / 4 /\
  coolingRate_C baseRate2_C (2 * t) bf sf == coolingRate_C baseRate2_C t bf sf / 4 /\
  coolingRate_C baseRate1_C t bf sf
    == coolingRate_C baseRate1_C 25 bf sf * Math_pow2 (25 / t) /\
  coolingRate_C baseRate2_C t bf sf
    == coolingRate_C baseRate2_C 25 bf sf * Math_pow2 (25 / t).
Proof.
  intros bf sf.
  pose proof (Qpos_neq0 t Ht) as Ht0.
  pose proof (Qpos_neq0 sf (safeFactor_pos c)) as Hs0.
  unfold coolingRate_C, Math_pow2, baseRate1_C, baseRate2_C.
  repeat split; field; auto.
Qed.

Lemma C1_witness :
  0 < 6.35 /\
  coolingRate_C baseRate1_C (2 * 6.35) 1.0 0.75 == coolingRate_C baseRate1_C 6.35 1.0 0.75 / 4 /\
  coolingRate_C baseRate2_C (2 * 6.35) 1.0 0.75 == coolingRate_C baseRate2_C 6.35 1.0 0.75 / 4 /\
  coolingRate_C baseRate1_C 6.35 1.0 0.75
    == coolingRate_C baseRate1_C 25 1.0 0.75 * Math_pow2 (25 / 6.35) /\
  coolingRate_C baseRate2_C 6.35 1.0 0.75
    == coolingRate_C baseRate2_C 25 1.0 0.75 * Math_pow2 (25 / 6.35).
Proof.
  split; [reflexivity|].
  exact (C1_rates_inverse_square Bullseye_COE_90 fast 6.35 (eq_refl _)).
Defined.

(** ** C3: the Custom fallback *)

Lemma in_tail_points (p start : AnnealingSchedulePoint) (head tail : list AnnealingSchedulePoint) :
  In p tail -> In p (start :: head ++ tail).
Proof. intros H. right. apply in_or_app. right. exact H. Qed.

(** C3. For a Custom glass with neither an anneal nor a strain-point
    override, in every mode and unit system the resolved anneal temperature
    is 900 F and the strain point 700 F, and the schedule carries them: its
    "Anneal Soak" waypoint is at 900 F and its "Strain Point" waypoint at
    700 F, both in the display unit. *)
Theorem C3_custom_defaults (a : CalculateScheduleArgs)
    (Hg : glassType a = Custom) (Ha : customAnneal a = None)
    (Hs : customStrain a = None) :
  annealTemp (resolve a) = 900 /\ strainPoint (resolve a) = 700 /\
  exists t5 t6,
    In (mkPoint t5 (toOutputTemp (units a) 900) "Anneal Soak" soak)
       (points (calculateSchedule a)) /\
    In (mkPoint t6 (toOutputTemp (units a) 700) "Strain Point" cool)
       (points (calculateSchedule a)).
Proof.
  assert (HA : annealTemp (resolve a) = 900).
  { cbn [resolve annealTemp]. unfold resolveAnnealTemp.
    rewrite Hg, Ha. reflexivity. }
  assert (HS : strainPoint (resolve a) = 700).
  { cbn [resolve strainPoint]. unfold resolveStrainPoint.
    rewrite Hg, Hs. reflexivity. }
  split; [exact HA|]. split; [exact HS|].
  unfold calculateSchedule. cbn [points]. unfold schedulePoints.
  rewrite HA, HS.
  destruct (negb (isAnnealOnly (mode a))).
  - destruct (firingPoints a (resolve a)) as [t head].
    do 2 eexists. split; apply in_tail_points; simpl; auto.
  - do 2 eexists. split; apply in_tail_points; simpl; auto.
Qed.

Lemma C3_witness :
  (glassType (customArgs cast) = Custom /\ customAnneal (customArgs cast) = None /\
   customStrain (customArgs cast) = None) /\
  (annealTemp (resolve (customArgs cast)) = 900 /\
   strainPoint (resolve (customArgs cast)) = 700 /\
   exists t5 t6,
     In (mkPoint t5 (toOutputTemp metric 900) "Anneal Soak" soak)
        (points (calculateSchedule (customArgs cast))) /\
     In (mkPoint t6 (toOutputTemp metric 700) "Strain Point" cool)
        (points (calculateSchedule (customArgs cast)))).
Proof.
  split; [repeat split; reflexivity|].
  exact (C3_custom_defaults (customArgs cast) eq_refl eq_refl eq_refl).
Defined.

(** ** C8: the Bullseye quarter-inch scenario *)

(** C8 (as the code computes it). Bullseye, 0.25 in, anneal-only, imperial,
    slab and fast (the defaults): the anneal soak is 0.762 h
    (0.16 * 6.35 mm * 0.75), Rate 1 is 540 F/hr (its 300 C/h cap), Rate 2
    is 720 F/hr (its 400 C/h cap), and the last waypoint is at the 150 F
    unload temperature. *)
Theorem C8_bullseye_quarter_inch :
  let a := bullseyeArgs (1 # 4) anneal_only in
  annealSoakHours (resolve a) == 0.762 /\
  rate1_F (resolve a) == 540 /\
  rate2_F (resolve a) == 720 /\
  lastTemp (points (calculateSchedule a)) = Some unloadTemp.
Proof. vm_compute. repeat split; reflexivity. Qed.

(** C8 as stated fails: Rate 1 is not 300 F/hr and Rate 2 is not 400 F/hr. *)
Lemma C8_counterexample :
  ~ (rate1_F (resolve (bullseyeArgs (1 # 4) anneal_only)) == 300 \/
     rate2_F (resolve (bullseyeArgs (1 # 4) anneal_only)) == 400).
Proof. vm_compute. intros [H | H]; discriminate H. Qed.

(** ** C10: a zero override is an absent override, except for the hold *)

(** C10. An override of exactly 0 for [customAnneal], [customStrain],
    [customProcessTemp] or [customProcessRamp] gives the same result as no
    override at all, whereas [customProcessHoldMins = 0] is kept: in a
    firing mode without indefinite hold the hold is then 0 minutes, not the
    (positive) per-mode default used when it is absent. *)
Theorem C10_zero_overrides (a : CalculateScheduleArgs) (ca cs cpt cph cpr : option Q) :
  calculateSchedule (withOverrides a (Some 0) cs cpt cph cpr)
    = calculateSchedule (withOverrides a None cs cpt cph cpr) /\
  calculateSchedule (withOverrides a ca (Some 0) cpt cph cpr)
    = calculateSchedule (withOverrides a ca None cpt cph cpr) /\
  calculateSchedule (withOverrides a ca cs (Some 0) cph cpr)
    = calculateSchedule (withOverrides a ca cs None cph cpr) /\
  calculateSchedule (withOverrides a ca cs cpt cph (Some 0))
    = calculateSchedule (withOverrides a ca cs cpt cph None) /\
  (isAnnealOnly (mode a) = false -> truthyBool (processHoldIndefinite a) = false ->
   processHoldMins (resolve (withOverrides a ca cs cpt (Some 0) cpr)) = 0 /\
   processHoldMins (resolve (withOverrides a ca cs cpt None cpr))
     = defaultProcessHoldMins (mode a) /\
   0 < defaultProcessHoldMins (mode a)).
Proof.
  split; [reflexivity|]. split; [reflexivity|].
  split; [reflexivity|]. split; [reflexivity|].
  intros Hm Hi. cbn [resolve processHoldMins]. unfold resolveProcessHoldMins.
  cbn [withOverrides mode processHoldIndefinite customProcessHoldMins].
  rewrite Hm, Hi.
  split; [reflexivity|]. split; [reflexivity|].
  destruct (mode a); try discriminate Hm; reflexivity.
Qed.

Lemma C10_witness :
  isAnnealOnly (mode (bullseyeArgs 1 tack_fuse)) = false /\
  truthyBool (processHoldIndefinite (bullseyeArgs 1 tack_fuse)) = false /\
  processHoldMins (resolve (withOverrides (bullseyeArgs 1 tack_fuse) None None None (Some 0) None)) = 0 /\
  processHoldMins (resolve (withOverrides (bullseyeArgs 1 tack_fuse) None None None None None))
    = defaultProcessHoldMins tack_fuse /\
  0 < defaultProcessHoldMins tack_fuse.
Proof.
  split; [reflexivity|]. split; [reflexivity|].
  destruct (C10_zero_overrides (bullseyeArgs 1 tack_fuse) None None None None None)
    as (_ & _ & _ & _ & H).
  exact (H eq_refl eq_refl).
Defined.

(** ** C5: the indefinite hold takes no schedule time *)

Lemma schedulePoints_times (a b : CalculateScheduleArgs) (r : Resolved) :
  mode a = mode b -> units a = units b ->
  moldDryHours a = moldDryHours b -> moldDryTemp a = moldDryTemp b ->
  map time (schedulePoints a r) = map time (schedulePoints b r).
Proof.
  intros Hm Hu Hd Ht.
  unfold schedulePoints, firingPoints, moldDryGate, moldDryTempF.
  rewrite Hm, Hu, Hd, Ht.
  destruct (negb (isAnnealOnly (mode b))); [|reflexivity].
  destruct (moldDryHours b) as [md|];
    [destruct (isCast (mode b) && negb (Qeq_bool md 0) && Qlt_bool 0 md)|];
    reflexivity.
Qed.

Lemma Qplus_zero_minutes (x : Q) : x + 0 / 60 == x.
Proof. field. Qed.

Lemma resolve_indefinite_as_zero_hold (a : CalculateScheduleArgs) (h : option Q) :
  isAnnealOnly (mode a) = false ->
  resolve (withHold a h (Some true)) = resolve (withHold a (Some 0) (Some false)).
Proof.
  intros Hm. unfold resolve, resolveProcessHoldMins.
  cbn [withHold mode processHoldIndefinite customProcessHoldMins truthyBool].
  rewrite Hm. reflexivity.
Qed.

(** C5. In a firing mode, the waypoints produced with
    [processHoldIndefinite = true] (whatever hold override is given) have
    exactly the cumulative times of those produced with
    [processHoldIndefinite = false] and a 0-minute hold override; the
    indefinite hold is one waypoint, at the time of the waypoint before it,
    labelled "Process Hold (Indefinite)" with its own segment type, so the
    labels differ from the finite run. *)
Theorem C5_indefinite_hold_zero_time (a : CalculateScheduleArgs) (h : option Q)
    (Hm : isAnnealOnly (mode a) = false) :
  let pI := points (calculateSchedule (withHold a h (Some true))) in
  let p0 := points (calculateSchedule (withHold a (Some 0) (Some false))) in
  map time pI = map time p0 /\
  (exists i p q,
     nth_error pI i = Some p /\ nth_error pI (S i) = Some q /\ time q == time p /\
     label q = Some "Process Hold (Indefinite)"%string /\
     segment_type q = process_hold) /\
  map label pI <> map label p0.
Proof.
  intros pI p0. subst pI p0.
  unfold calculateSchedule. cbn [points].
  rewrite (resolve_indefinite_as_zero_hold a h Hm).
  assert (H0 : processHoldMins (resolve (withHold a (Some 0) (Some false))) = 0).
  { cbn [resolve processHoldMins]. unfold resolveProcessHoldMins.
    cbn [withHold mode processHoldIndefinite customProcessHoldMins truthyBool].
    rewrite Hm. reflexivity. }
  set (r := resolve (withHold a (Some 0) (Some false))) in *.
  split; [apply schedulePoints_times; reflexivity|].
  unfold schedulePoints, firingPoints, moldDryGate, holdLabel.
  cbn [withHold mode moldDryHours processHoldIndefinite truthyBool].
  rewrite Hm. cbn [negb].
  destruct (moldDryHours a) as [md|];
    [destruct (isCast (mode a) && negb (Qeq_bool md 0) && Qlt_bool 0 md)|].
  all: cbv beta iota zeta.
  1: pose (i := 3%nat).
  2, 3: pose (i := 1%nat).
  all: split;
    [ exists i; do 2 eexists; split; [reflexivity|]; split; [reflexivity|];
      cbn [time label segment_type mkPoint]; rewrite H0;
      split; [apply Qplus_zero_minutes|];
      split; reflexivity
    | intros E; apply (f_equal (fun l => nth_error l (S i))) in E;
      cbn in E; discriminate E ].
Qed.

Lemma C5_witness :
  isAnnealOnly (mode (bullseyeArgs 1 tack_fuse)) = false /\
  let a := bullseyeArgs 1 tack_fuse in
  let pI := points (calculateSchedule (withHold a None (Some true))) in
  let p0 := points (calculateSchedule (withHold a (Some 0) (Some false))) in
  map time pI = map time p0 /\
  (exists i p q,
     nth_error pI i = Some p /\ nth_error pI (S i) = Some q /\ time q == time p /\
     label q = Some "Process Hold (Indefinite)"%string /\
     segment_type q = process_hold) /\
  map label pI <> map label p0.
Proof.
  split; [reflexivity|].
  exact (C5_indefinite_hold_zero_time (bullseyeArgs 1 tack_fuse) None eq_refl).
Defined.

(** ** C4: which thicknesses are refused *)

Lemma schedulePoints_length (a : CalculateScheduleArgs) (r : Resolved) :
  (5 <= length (schedulePoints a r))%nat.
Proof.
  unfold schedulePoints, firingPoints.
  destruct (negb (isAnnealOnly (mode a))); [|simpl; lia].
  destruct (moldDryGate a); simpl; rewrite ?length_app; simpl; lia.
Qed.

(** C4 (as the code does it). The only thickness [handleCalculate]
    refuses is one that parses to NaN (an empty field): it alerts and
    leaves the state as it is.  Every other thickness, zero and negative
    ones included, is passed to [calculateSchedule] and its schedule
    shown, unless the glass is Custom with an empty anneal or strain
    field (the other refusal of [handleCalculate]); the engine itself
    validates nothing and returns at least five waypoints for every
    input. *)
Theorem C4_only_nan_thickness_refused :
  (forall s, App.thickness s = App.FEmpty -> App.handleCalculate s = s) /\
  (forall s t, App.thickness s = App.FNum t ->
     ~ (isCustom (App.glassType s) = true /\
        (App.customAnneal s = App.FEmpty \/ App.customStrain s = App.FEmpty)) ->
     exists a, App.handleCalculateArgs s = Some a /\ thickness a = t /\
       App.handleCalculate s = App.setResult s (calculateSchedule a)) /\
  (forall a, (5 <= length (points (calculateSchedule a)))%nat).
Proof.
  split; [|split].
  - intros s Ht. unfold App.handleCalculate, App.handleCalculateArgs. rewrite Ht. reflexivity.
  - intros s t Ht Hc.
    assert (Ha : exists a, App.handleCalculateArgs s = Some a /\ thickness a = t).
    { unfold App.handleCalculateArgs. rewrite Ht. cbn [App.parseFloat].
      destruct (isCustom (App.glassType s)) eqn:Ec.
      - destruct (App.customAnneal s) eqn:Ea; [exfalso; apply Hc; auto|].
        destruct (App.customStrain s) eqn:Es; [exfalso; apply Hc; auto|].
        eexists. split; reflexivity.
      - eexists. split; reflexivity. }
    destruct Ha as [a [Ha Hta]]. exists a. split; [exact Ha|]. split; [exact Hta|].
    unfold App.handleCalculate. rewrite Ha. reflexivity.
  - intros a. apply schedulePoints_length.
Qed.

(** C4 as stated fails: a thickness of -1 in is not refused, a schedule is
    computed and shown for it. *)
Lemma C4_counterexample :
  exists res,
    App.result (App.handleCalculate negativeThicknessForm) = Some res /\
    length (points res) = 5%nat.
Proof. eexists. split; [reflexivity|]. reflexivity. Qed.

Lemma C4_witness :
  exists a, App.handleCalculateArgs negativeThicknessForm = Some a /\ thickness a = -1 /\
    App.handleCalculate negativeThicknessForm =
      App.setResult negativeThicknessForm (calculateSchedule a).
Proof.
  apply (proj1 (proj2 C4_only_nan_thickness_refused) negativeThicknessForm (-1)).
  - reflexivity.
  - cbn. intros [H _]. discriminate H.
Defined.

(** ** C7: default process holds *)

(** C7 (as the code does it). Without a hold override and without
    indefinite hold, the process hold is the per-mode default: 20 min for
    slump, 10 for tack fuse, 15 for full fuse, 30 for cast (0 for
    anneal-only).  Cast has the longest, and tack < full < cast, but the
    slump default is longer than the tack- and full-fuse ones. *)
Theorem C7_default_process_hold (a : CalculateScheduleArgs)
    (Hh : customProcessHoldMins a = None)
    (Hi : truthyBool (processHoldIndefinite a) = false) :
  processHoldMins (resolve a) = defaultProcessHoldMins (mode a) /\
  defaultProcessHoldMins slump = 20 /\ defaultProcessHoldMins tack_fuse = 10 /\
  defaultProcessHoldMins full_fuse = 15 /\ defaultProcessHoldMins cast = 30 /\
  (forall m, defaultProcessHoldMins m <= defaultProcessHoldMins cast) /\
  defaultProcessHoldMins tack_fuse < defaultProcessHoldMins full_fuse /\
  defaultProcessHoldMins full_fuse < defaultProcessHoldMins cast /\
  defaultProcessHoldMins full_fuse < defaultProcessHoldMins slump.
Proof.
  split.
  - cbn [resolve processHoldMins]. unfold resolveProcessHoldMins.
    rewrite Hh, Hi. destruct (mode a); reflexivity.
  - repeat split; try reflexivity.
    intros m. destruct m; discriminate.
Qed.

Lemma C7_witness :
  (customProcessHoldMins (bullseyeArgs 1 slump) = None /\
   truthyBool (processHoldIndefinite (bullseyeArgs 1 slump)) = false) /\
  (processHoldMins (resolve (bullseyeArgs 1 slump)) = defaultProcessHoldMins slump /\
   defaultProcessHoldMins slump = 20 /\ defaultProcessHoldMins tack_fuse = 10 /\
   defaultProcessHoldMins full_fuse = 15 /\ defaultProcessHoldMins cast = 30 /\
   (forall m, defaultProcessHoldMins m <= defaultProcessHoldMins cast) /\
   defaultProcessHoldMins tack_fuse < defaultProcessHoldMins full_fuse /\
   defaultProcessHoldMins full_fuse < defaultProcessHoldMins cast /\
   defaultProcessHoldMins full_fuse < defaultProcessHoldMins slump).
Proof.
  split; [split; reflexivity|].
  exact (C7_default_process_hold (bullseyeArgs 1 slump) eq_refl eq_refl).
Defined.

(** C7 as stated fails: the default slump hold is not shorter than the
    default tack-fuse hold. *)
Lemma C7_counterexample :
  ~ (processHoldMins (resolve (bullseyeArgs 1 slump))
       < processHoldMins (resolve (bullseyeArgs 1 tack_fuse))).
Proof. vm_compute. intros H. discriminate H. Qed.

(** ** C6: conservativeness ordering *)

Lemma Math_max_ge_l (x y : Q) : x <= Math_max x y.
Proof.
  unfold Math_max. destruct (Qle_bool x y) eqn:E.
  - apply Qle_bool_iff. exact E.
  - apply Qle_refl.
Qed.

Lemma annealSoakHoursOf_mono (eff s1 s2 : Q) :
  s1 <= s2 -> annealSoakHoursOf eff s1 <= annealSoakHoursOf eff s2.
Proof.
  intros H. unfold annealSoakHoursOf.
  apply Qmult_le_l; [|exact H].
  apply Qlt_le_trans with 0.5; [reflexivity|apply Math_max_ge_l].
Qed.

Lemma coolingRate_C_anti (base eff bf s1 s2 : Q) :
  0 < base -> 0 < eff -> 0 < bf -> / s2 < / s1 ->
  coolingRate_C base eff bf s2 < coolingRate_C base eff bf s1.
Proof.
  intros Hb He Hf Hs. unfold coolingRate_C, Qdiv.
  apply Qmult_lt_l; [|exact Hs].
  apply Qmult_lt_0_compat; [|exact Hf].
  apply Qmult_lt_0_compat; [exact Hb|].
  apply square_pos. apply Qmult_lt_0_compat; [reflexivity|].
  apply Qinv_lt_0_compat; exact He.
Qed.

Lemma toFahrenheitRate_mono (x y : Q) : x <= y -> x * 9 / 5 <= y * 9 / 5.
Proof.
  intros H. unfold Qdiv.
  apply Qmult_le_compat_r; [|discriminate].
  apply Qmult_le_compat_r; [exact H|discriminate].
Qed.

(** C6 (as the code does it). For fixed glass, thickness (positive),
    shape and mode, the anneal soak is ordered cautious >= standard >= fast;
    Rate 1 and Rate 2 are ordered cautious <= standard <= fast, and before
    their caps (300 C/h and 400 C/h) strictly so: cautious < standard < fast. *)
Theorem C6_conservativeness_ordering (a : CalculateScheduleArgs)
    (Ht : 0 < thickness a) :
  let r c := resolve (withConservativeness a c) in
  let eff := effectiveThicknessMm a in
  let bf := brand_factor (GLASS_LIBRARY (glassType a)) in
  let sf := CONSERVATIVENESS_FACTORS in
  annealSoakHours (r standard) <= annealSoakHours (r cautious) /\
  annealSoakHours (r fast) <= annealSoakHours (r standard) /\
  rate1_F (r cautious) <= rate1_F (r standard) /\
  rate1_F (r standard) <= rate1_F (r fast) /\
  rate2_F (r cautious) <= rate2_F (r standard) /\
  rate2_F (r standard) <= rate2_F (r fast) /\
  coolingRate_C baseRate1_C eff bf (sf cautious) < coolingRate_C baseRate1_C eff bf (sf standard) /\
  coolingRate_C baseRate1_C eff bf (sf standard) < coolingRate_C baseRate1_C eff bf (sf fast) /\
  coolingRate_C baseRate2_C eff bf (sf cautious) < coolingRate_C baseRate2_C eff bf (sf standard) /\
  coolingRate_C baseRate2_C eff bf (sf standard) < coolingRate_C baseRate2_C eff bf (sf fast).
Proof.
  intros r eff bf sf. subst r.
  pose proof (effectiveThicknessMm_pos a Ht) as He.
  pose proof (brand_factor_pos (glassType a)) as Hf.
  assert (H1cs : coolingRate_C baseRate1_C eff bf (sf cautious)
                 < coolingRate_C baseRate1_C eff bf (sf standard))
    by (apply coolingRate_C_anti; auto; reflexivity).
  assert (H1sf : coolingRate_C baseRate1_C eff bf (sf standard)
                 < coolingRate_C baseRate1_C eff bf (sf fast))
    by (apply coolingRate_C_anti; auto; reflexivity).
  assert (H2cs : coolingRate_C baseRate2_C eff bf (sf cautious)
                 < coolingRate_C baseRate2_C eff bf (sf standard))
    by (apply coolingRate_C_anti; auto; reflexivity).
  assert (H2sf : coolingRate_C baseRate2_C eff bf (sf standard)
                 < coolingRate_C baseRate2_C eff bf (sf fast))
    by (apply coolingRate_C_anti; auto; reflexivity).
  cbn [resolve annealSoakHours rate1_F rate2_F withConservativeness
       conservativeness glassType].
  unfold rate1_F_of, rate2_F_of.
  repeat split;
    try (apply annealSoakHoursOf_mono; discriminate);
    try (apply toFahrenheitRate_mono, capAt_mono, Qlt_le_weak; assumption);
    assumption.
Qed.

Lemma C6_witness :
  0 < thickness (bullseyeArgs 1 full_fuse) /\
  let a := bullseyeArgs 1 full_fuse in
  let r c := resolve (withConservativeness a c) in
  let eff := effectiveThicknessMm a in
  let bf := brand_factor (GLASS_LIBRARY (glassType a)) in
  let sf := CONSERVATIVENESS_FACTORS in
  annealSoakHours (r standard) <= annealSoakHours (r cautious) /\
  annealSoakHours (r fast) <= annealSoakHours (r standard) /\
  rate1_F (r cautious) <= rate1_F (r standard) /\
  rate1_F (r standard) <= rate1_F (r fast) /\
  rate2_F (r cautious) <= rate2_F (r standard) /\
  rate2_F (r standard) <= rate2_F (r fast) /\
  coolingRate_C baseRate1_C eff bf (sf cautious) < coolingRate_C baseRate1_C eff bf (sf standard) /\
  coolingRate_C baseRate1_C eff bf (sf standard) < coolingRate_C baseRate1_C eff bf (sf fast) /\
  coolingRate_C baseRate2_C eff bf (sf cautious) < coolingRate_C baseRate2_C eff bf (sf standard) /\
  coolingRate_C baseRate2_C eff bf (sf standard) < coolingRate_C baseRate2_C eff bf (sf fast).
Proof.
  split; [reflexivity|].
  exact (C6_conservativeness_ordering (bullseyeArgs 1 full_fuse) eq_refl).
Defined.

(** C6 as stated fails: for 0.05 in Bullseye, Rate 1 is capped at
    540 F/hr both at standard and at fast, so it does not strictly
    increase from standard to fast. *)
Lemma C6_counterexample :
  ~ (rate1_F (resolve (withConservativeness (bullseyeArgs (1 # 20) anneal_only) standard))
     < rate1_F (resolve (withConservativeness (bullseyeArgs (1 # 20) anneal_only) fast))).
Proof. vm_compute. intros H. discriminate H. Qed.

(** ** C2: the waypoint sequence starts at 0 and never goes back in time *)

Lemma Qle_plus_nonneg (x d : Q) : 0 <= d -> x <= x + d.
Proof.
  intros H. rewrite <- (Qplus_0_r x) at 1. apply Qplus_le_r. exact H.
Qed.

Lemma Qdiv_nonneg (n d : Q) : 0 <= n -> 0 < d -> 0 <= n / d.
Proof.
  intros Hn Hd. unfold Qdiv. apply Qmult_le_0_compat; [exact Hn|].
  apply Qinv_le_0_compat. apply Qlt_le_weak. exact Hd.
Qed.

Lemma Qminus_nonneg (x y : Q) : x <= y -> 0 <= y - x.
Proof. intros H. apply Qle_minus_iff in H. exact H. Qed.

Lemma moldDryGate_pos (a : CalculateScheduleArgs) (h : Q) :
  moldDryGate a = Some h -> 0 < h.
Proof.
  unfold moldDryGate. destruct (moldDryHours a) as [md|]; [|discriminate].
  destruct (isCast (mode a) && negb (Qeq_bool md 0) && Qlt_bool 0 md) eqn:E;
    [|discriminate].
  intros Heq. injection Heq as <-.
  apply Bool.andb_true_iff in E as [_ E]. apply Qlt_bool_iff. exact E.
Qed.

Lemma rate_F_pos (cap base eff bf sf : Q) :
  0 < cap -> 0 < base -> 0 < eff -> 0 < bf -> 0 < sf ->
  0 < capAt cap (coolingRate_C base eff bf sf) * 9 / 5.
Proof.
  intros. unfold Qdiv.
  apply Qmult_lt_0_compat; [|reflexivity].
  apply Qmult_lt_0_compat; [|reflexivity].
  apply capAt_pos; [assumption|]. apply coolingRate_C_pos; assumption.
Qed.

Lemma annealSoakHoursOf_nonneg (eff sf : Q) : 0 < sf -> 0 <= annealSoakHoursOf eff sf.
Proof.
  intros Hs. unfold annealSoakHoursOf. apply Qmult_le_0_compat.
  - apply Qle_trans with 0.5; [discriminate|apply Math_max_ge_l].
  - apply Qlt_le_weak. exact Hs.
Qed.

Lemma schedulePoints_start (a : CalculateScheduleArgs) (r : Resolved) :
  exists ps, schedulePoints a r
             = mkPoint 0 (toOutputTemp (units a) unloadTemp) "Start" off :: ps.
Proof.
  unfold schedulePoints.
  destruct (negb (isAnnealOnly (mode a))); [destruct (firingPoints a r)|];
    eexists; reflexivity.
Qed.

(** One cumulative-time step [t + d] with [d >= 0]. *)
Ltac time_step :=
  apply Qle_plus_nonneg;
  first
    [ assumption
    | apply Qlt_le_weak; assumption
    | apply Qdiv_nonneg; [apply Qminus_nonneg; assumption | first [assumption | reflexivity]]
    | apply Qdiv_nonneg; [assumption | reflexivity] ].

(** C2 (as the code guarantees it). The first waypoint is at time 0 and at
    the 150 F unload temperature in the display unit.  The cumulative times
    never decrease when the thickness is positive, the ramp rate to process
    is positive, and the resolved values are ordered as a firing needs:
    unload <= strain point <= anneal, and in a firing mode
    anneal <= process temperature, a non-negative hold, and a mold-dry
    temperature between unload and process temperature. *)
Theorem C2_waypoints_start_and_monotone (a : CalculateScheduleArgs)
    (Ht : 0 < thickness a)
    (Hramp : 0 < rampToProcessRate (resolve a))
    (Hus : unloadTemp <= strainPoint (resolve a))
    (Hsa : strainPoint (resolve a) <= annealTemp (resolve a))
    (Hfire : isAnnealOnly (mode a) = false ->
       annealTemp (resolve a) <= processTemp (resolve a) /\
       0 <= processHoldMins (resolve a) /\
       (forall h, moldDryGate a = Some h ->
          unloadTemp <= moldDryTempF a /\ moldDryTempF a <= processTemp (resolve a))) :
  (exists p ps, points (calculateSchedule a) = p :: ps /\
     time p = 0 /\ temp p = toOutputTemp (units a) unloadTemp) /\
  timesNondecreasing (points (calculateSchedule a)).
Proof.
  split.
  { unfold calculateSchedule. cbn [points].
    destruct (schedulePoints_start a (resolve a)) as [ps E]. rewrite E.
    do 2 eexists. split; [reflexivity|]. split; reflexivity. }
  pose proof (effectiveThicknessMm_pos a Ht) as He.
  assert (Hr1 : 0 < rate1_F (resolve a))
    by exact (rate_F_pos 300 baseRate1_C _ _ _ eq_refl eq_refl He
               (brand_factor_pos _) (safeFactor_pos _)).
  assert (Hr2 : 0 < rate2_F (resolve a))
    by exact (rate_F_pos 400 baseRate2_C _ _ _ eq_refl eq_refl He
               (brand_factor_pos _) (safeFactor_pos _)).
  assert (Hsoak : 0 <= annealSoakHours (resolve a))
    by exact (annealSoakHoursOf_nonneg _ _ (safeFactor_pos _)).
  assert (Hua : unloadTemp <= annealTemp (resolve a))
    by (apply Qle_trans with (strainPoint (resolve a)); assumption).
  unfold calculateSchedule. cbn [points]. unfold schedulePoints.
  set (r := resolve a) in *.
  destruct (isAnnealOnly (mode a)) eqn:Em.
  - cbn [negb timesNondecreasing time mkPoint app].
    repeat split; time_step.
  - destruct (Hfire eq_refl) as (Hap & Hh & Hmd).
    assert (Hup : unloadTemp <= processTemp r)
      by (apply Qle_trans with (annealTemp r); assumption).
    unfold firingPoints. destruct (moldDryGate a) as [h|] eqn:Eg.
    + destruct (Hmd h eq_refl) as [Hm1 Hm2].
      pose proof (moldDryGate_pos a h Eg) as Hh0.
      cbn [negb timesNondecreasing time mkPoint app].
      repeat split; time_step.
    + cbn [negb timesNondecreasing time mkPoint app].
      repeat split; time_step.
Qed.

Lemma C2_witness :
  (0 < thickness (bullseyeArgs 1 tack_fuse) /\
   0 < rampToProcessRate (resolve (bullseyeArgs 1 tack_fuse)) /\
   unloadTemp <= strainPoint (resolve (bullseyeArgs 1 tack_fuse)) /\
   strainPoint (resolve (bullseyeArgs 1 tack_fuse))
     <= annealTemp (resolve (bullseyeArgs 1 tack_fuse))) /\
  (exists p ps, points (calculateSchedule (bullseyeArgs 1 tack_fuse)) = p :: ps /\
     time p = 0 /\ temp p = toOutputTemp imperial unloadTemp) /\
  timesNondecreasing (points (calculateSchedule (bullseyeArgs 1 tack_fuse))).
Proof.
  split; [repeat split; vm_compute; first [reflexivity | discriminate]|].
  apply (C2_waypoints_start_and_monotone (bullseyeArgs 1 tack_fuse));
    try (vm_compute; first [reflexivity | discriminate]).
  intros _. split; [vm_compute; first [reflexivity | discriminate]|]. split; [vm_compute; first [reflexivity | discriminate]|].
  intros h Hg. discriminate Hg.
Defined.

(** C2 as stated fails: with a strain-point override above the anneal
    temperature (1000 F for Bullseye, imperial), the "Strain Point"
    waypoint comes before the "Anneal Soak" waypoint in time. *)
Lemma C2_counterexample :
  ~ timesNondecreasing (points (calculateSchedule strainAboveAnnealArgs)).
Proof.
  vm_compute. intros (_ & _ & H & _). apply H. reflexivity.
Qed.

(** ** C9: the Digitry text *)

Lemma append_assoc_str (x y z : string) : ((x ++ y) ++ z = x ++ (y ++ z))%string.
Proof. induction x as [|c x IH]; simpl; [reflexivity|]. rewrite IH. reflexivity. Qed.

Lemma append_empty_r (x : string) : (x ++ EmptyString)%string = x.
Proof. induction x as [|c x IH]; simpl; [reflexivity|]. rewrite IH. reflexivity. Qed.

(** The [forEach] loop appends the step texts in order, numbered from its
    starting counter. *)
Lemma digitryForEach_concat (u : UnitSystem) (n : nat) (acc : string)
    (ps : list AnnealingSchedulePoint) :
  digitryForEach u n acc ps = (acc ++ concatStrings (digitrySteps u n ps))%string.
Proof.
  revert n acc. induction ps as [|p ps IH]; intros n acc; simpl.
  - symmetry. apply append_empty_r.
  - rewrite IH. apply append_assoc_str.
Qed.

Lemma digitrySteps_length (u : UnitSystem) (n : nat) (ps : list AnnealingSchedulePoint) :
  length (digitrySteps u n ps) = length ps.
Proof.
  revert n. induction ps as [|p ps IH]; intros n; simpl; [reflexivity|].
  rewrite IH. reflexivity.
Qed.

Lemma digitrySteps_nth (u : UnitSystem) (ps : list AnnealingSchedulePoint) :
  forall n i p, nth_error ps i = Some p ->
  nth_error (digitrySteps u n ps) i = Some (digitryStepText u (n + i) p).
Proof.
  induction ps as [|q ps IH]; intros n i p H; [destruct i; discriminate|].
  destruct i as [|i]; simpl in *.
  - injection H as ->. rewrite Nat.add_0_r. reflexivity.
  - rewrite (IH (S n) i p H). rewrite Nat.add_succ_r. reflexivity.
Qed.

(** C9 (as the code does it). The Digitry text is its header followed by
    one numbered step per waypoint after the start waypoint, in order; step
    [i + 1] states the waypoint's label, its temperature rounded in the
    display unit, and its cumulative time rounded to minutes as hh:mm, and
    when the label contains "Indefinite" the marker " (HOLD)" follows that
    time. *)
Theorem C9_digitry_steps (a : CalculateScheduleArgs) :
  let pts := points (calculateSchedule a) in
  let steps := digitrySteps (units a) 1 (tl pts) in
  digitry_instructions (calculateSchedule a) = (digitryHeader a ++ concatStrings steps)%string /\
  length steps = (length pts - 1)%nat /\
  forall i p, nth_error (tl pts) i = Some p ->
    nth_error steps i = Some
      ("STEP " ++ natToString (S i) ++ ": " ++ labelString (label p) ++ nl
         ++ "  TEMP: " ++ roundStr (temp p) ++ tempUnit (units a) ++ nl
         ++ "  TIME: " ++ generateTimeStr (Math_round (time p * 60))
         ++ (if labelIncludesIndefinite (label p) then " (HOLD)" else "")
         ++ nl ++ nl)%string.
Proof.
  intros pts steps. split; [|split].
  - apply digitryForEach_concat.
  - subst steps. rewrite digitrySteps_length.
    destruct pts; simpl; lia.
  - intros i p H. subst steps. rewrite (digitrySteps_nth _ _ 1 i p H).
    unfold digitryStepText. simpl Nat.add.
    destruct (labelIncludesIndefinite (label p)).
    + rewrite !append_assoc_str. reflexivity.
    + reflexivity.
Qed.

(** C9 as stated fails: the indefinite-hold step keeps its cumulative time
    and the hold marker follows it ("03:00 (HOLD)"), it does not replace it. *)
Lemma C9_counterexample :
  nth_error (digitrySteps imperial 1 (tl (points (calculateSchedule indefiniteTackArgs)))) 1
  = Some ("STEP 2: Process Hold (Indefinite)" ++ nl ++ "  TEMP: 1350°F" ++ nl
          ++ "  TIME: 03:00 (HOLD)" ++ nl ++ nl)%string.
Proof. vm_compute. reflexivity. Qed.

Lemma C9_witness :
  match nth_error (tl (points (calculateSchedule indefiniteTackArgs))) 1 with
  | Some p =>
      nth_error (digitrySteps imperial 1 (tl (points (calculateSchedule indefiniteTackArgs)))) 1
      = Some
          ("STEP " ++ natToString 2 ++ ": " ++ labelString (label p) ++ nl
             ++ "  TEMP: " ++ roundStr (temp p) ++ tempUnit imperial ++ nl
             ++ "  TIME: " ++ generateTimeStr (Math_round (time p * 60))
             ++ (if labelIncludesIndefinite (label p) then " (HOLD)" else "")
             ++ nl ++ nl)%string
  | None => False
  end.
Proof.
  destruct (C9_digitry_steps indefiniteTackArgs) as (_ & _ & H).
  destruct (nth_error (tl (points (calculateSchedule indefiniteTackArgs))) 1) as [p|] eqn:E.
  - exact (H 1%nat p E).
  - vm_compute in E. discriminate E.
Defined.

(** * Further properties of the code *)

Lemma segment_types_by_mode (a : CalculateScheduleArgs) :
  map segment_type (points (calculateSchedule a)) =
  if isAnnealOnly (mode a) then [off; heat; soak; cool; cool]
  else match moldDryGate a with
       | Some _ => [off; heat; process; process; process_hold; cool; soak; cool; cool]
       | None => [off; process; process_hold; cool; soak; cool; cool]
       end.
Proof.
  unfold calculateSchedule, schedulePoints, firingPoints. cbn [points].
  destruct (isAnnealOnly (mode a)); [reflexivity|].
  cbn [negb]. destruct (moldDryGate a); reflexivity.
Qed.

(** X1. The waypoints of [calculateSchedule] have a fixed sequence of
    segment types per mode: off, heat, soak, cool, cool in anneal-only
    mode; with a mold dry, off, heat, process, process, process_hold,
    cool, soak, cool, cool; otherwise off, process, process_hold, cool,
    soak, cool, cool. *)
Theorem schedule_segment_types (a : CalculateScheduleArgs) :
  map segment_type (points (calculateSchedule a)) =
  if isAnnealOnly (mode a) then [off; heat; soak; cool; cool]
  else match moldDryGate a with
       | Some _ => [off; heat; process; process; process_hold; cool; soak; cool; cool]
       | None => [off; process; process_hold; cool; soak; cool; cool]
       end.
Proof. exact (segment_types_by_mode a). Qed.






Lemma chart_types_anneal (ps : list AnnealingSchedulePoint) :
  map segment_type ps = [off; heat; soak; cool; cool] ->
  map traceSummary (Chart.chartTraces ps) = annealTraces /\ allOpaque (Chart.chartTraces ps).
Proof. intros H. split_points H. split; [reflexivity|]. vm_compute. repeat constructor. Qed.

Lemma chart_types_dry (ps : list AnnealingSchedulePoint) :
  map segment_type ps = [off; heat; process; process; process_hold; cool; soak; cool; cool] ->
  map traceSummary (Chart.chartTraces ps) = firingTraces /\ allOpaque (Chart.chartTraces ps).
Proof. intros H. split_points H. split; [reflexivity|]. vm_compute. repeat constructor. Qed.

Lemma chart_types_firing (ps : list AnnealingSchedulePoint) :
  map segment_type ps = [off; process; process_hold; cool; soak; cool; cool] ->
  map traceSummary (Chart.chartTraces ps) = firingTraces /\ allOpaque (Chart.chartTraces ps).
Proof. intros H. split_points H. split; [reflexivity|]. vm_compute. repeat constructor. Qed.

(** X21. The chart of a schedule has the traces Heating, Cooling in
    anneal-only mode, and Heating, Cooling, Heating, Cooling, Indefinite
    Hold otherwise, the last drawn as markers only; every marker is
    opaque. *)
Theorem schedule_chart_traces (a : CalculateScheduleArgs) :
  map traceSummary (Chart.chartTraces (points (calculateSchedule a))) =
  (if isAnnealOnly (mode a) then annealTraces else firingTraces) /\
  allOpaque (Chart.chartTraces (points (calculateSchedule a))).
Proof.
  pose proof (segment_types_by_mode a) as H.
  destruct (isAnnealOnly (mode a)); [apply chart_types_anneal; exact H|].
  destruct (moldDryGate a); [apply chart_types_dry | apply chart_types_firing]; exact H.
Qed.


Lemma Qfloor_unique (z : Z) (q : Q) :
  inject_Z z <= q -> q < inject_Z z + 1 -> Qfloor q = z.
Proof.
  intros H1 H2. pose proof (Qfloor_le q) as H3. pose proof (Qlt_floor q) as H4.
  rewrite inject_Z_plus in H4. change (inject_Z 1) with 1 in H4.
  assert (H5 : inject_Z (Qfloor q) < inject_Z (z + 1)) by (rewrite inject_Z_plus; change (inject_Z 1) with 1; lra).
  assert (H6 : inject_Z z < inject_Z (Qfloor q + 1)) by (rewrite inject_Z_plus; change (inject_Z 1) with 1; lra).
  rewrite <- Zlt_Qlt in H5, H6. lia.
Qed.

Lemma round_near (y : Q) : Qabs (inject_Z (Qfloor (y + (1 # 2))) - y) <= 1 # 2.
Proof.
  pose proof (Qfloor_le (y + (1 # 2))). pose proof (Qlt_floor (y + (1 # 2))).
  rewrite inject_Z_plus in H0. change (inject_Z 1) with 1 in H0.
  apply Qabs_Qle_condition. split; lra.
Qed.


Lemma scaled_near (p y : Q) : 0 < p ->
  Qabs (inject_Z (Qfloor (y * p + (1 # 2))) / p - y) <= (1 # 2) / p.
Proof.
  intros Hp.
  setoid_replace (inject_Z (Qfloor (y * p + (1 # 2))) / p - y)
    with ((inject_Z (Qfloor (y * p + (1 # 2))) - y * p) * / p)
    by (field; apply Qpos_neq0; exact Hp).
  assert (Hi : 0 <= / p) by (apply Qlt_le_weak, Qinv_lt_0_compat; exact Hp).
  rewrite Qabs_Qmult, (Qabs_pos (/ p)) by exact Hi.
  unfold Qdiv. apply Qmult_le_compat_r; [apply round_near | exact Hi].
Qed.

Lemma pow10_pos (f : nat) : 0 < inject_Z (10 ^ Z.of_nat f).
Proof.
  change 0 with (inject_Z 0). rewrite <- Zlt_Qlt. apply Z.pow_pos_nonneg; lia.
Qed.

Lemma toFixed_near (f : nat) (x : Q) :
  Qabs x < inject_Z (10 ^ 21) ->
  Qabs (App.toFixed f x - x) <= (1 # 2) / inject_Z (10 ^ Z.of_nat f).
Proof.
  intros Hx. pose proof (pow10_pos f) as Hp. unfold App.toFixed.
  destruct (Qlt_bool x 0) eqn:Es.
  - apply Qlt_bool_iff in Es.
    rewrite Qabs_neg in Hx by lra.
    destruct (Qle_bool (inject_Z (10 ^ 21)) (- x)) eqn:Eb.
    + apply Qle_bool_iff in Eb. lra.
    + setoid_replace (- (inject_Z (Qfloor (- x * inject_Z (10 ^ Z.of_nat f) + (1 # 2)))
                       / inject_Z (10 ^ Z.of_nat f)) - x)
        with (- (inject_Z (Qfloor (- x * inject_Z (10 ^ Z.of_nat f) + (1 # 2)))
                 / inject_Z (10 ^ Z.of_nat f) - - x)) by ring.
      rewrite Qabs_opp. apply scaled_near; exact Hp.
  - assert (H0 : 0 <= x) by (apply Qnot_lt_le; intro H; apply Qlt_bool_iff in H; congruence).
    rewrite Qabs_pos in Hx by exact H0.
    destruct (Qle_bool (inject_Z (10 ^ 21)) x) eqn:Eb.
    + apply Qle_bool_iff in Eb. lra.
    + apply scaled_near; exact Hp.
Qed.

Lemma scaled_close (p y : Q) (n : Z) : 0 < p ->
  Qabs (y - inject_Z n / p) < (1 # 2) / p ->
  inject_Z (Qfloor (y * p + (1 # 2))) = inject_Z n.
Proof.
  intros Hp Hc. f_equal. apply Qfloor_unique.
  - assert (Hm : Qabs (y * p - inject_Z n) < 1 # 2).
    { setoid_replace (y * p - inject_Z n) with ((y - inject_Z n / p) * p)
        by (field; apply Qpos_neq0; exact Hp).
      rewrite Qabs_Qmult, (Qabs_pos p) by lra.
      setoid_replace (1 # 2) with ((1 # 2) / p * p) by (field; apply Qpos_neq0; exact Hp).
      apply Qmult_lt_r; assumption. }
    apply Qabs_Qlt_condition in Hm. lra.
  - assert (Hm : Qabs (y * p - inject_Z n) < 1 # 2).
    { setoid_replace (y * p - inject_Z n) with ((y - inject_Z n / p) * p)
        by (field; apply Qpos_neq0; exact Hp).
      rewrite Qabs_Qmult, (Qabs_pos p) by lra.
      setoid_replace (1 # 2) with ((1 # 2) / p * p) by (field; apply Qpos_neq0; exact Hp).
      apply Qmult_lt_r; assumption. }
    apply Qabs_Qlt_condition in Hm. lra.
Qed.

Lemma toFixed_close (f : nat) (x : Q) (n : Z) :
  Qabs x < inject_Z (10 ^ 21) ->
  Qabs (x - inject_Z n / inject_Z (10 ^ Z.of_nat f)) < (1 # 2) / inject_Z (10 ^ Z.of_nat f) ->
  App.toFixed f x == inject_Z n / inject_Z (10 ^ Z.of_nat f).
Proof.
  intros Hx Hc. pose proof (pow10_pos f) as Hp. unfold App.toFixed.
  destruct (Qlt_bool x 0) eqn:Es.
  - apply Qlt_bool_iff in Es.
    rewrite Qabs_neg in Hx by lra.
    destruct (Qle_bool (inject_Z (10 ^ 21)) (- x)) eqn:Eb.
    + apply Qle_bool_iff in Eb. lra.
    + rewrite (scaled_close _ (- x) (- n) Hp).
      * rewrite inject_Z_opp. field. apply Qpos_neq0; exact Hp.
      * rewrite inject_Z_opp.
        setoid_replace (- x - - inject_Z n / inject_Z (10 ^ Z.of_nat f))
          with (- (x - inject_Z n / inject_Z (10 ^ Z.of_nat f)))
          by (field; apply Qpos_neq0; exact Hp).
        rewrite Qabs_opp. exact Hc.
  - assert (H0 : 0 <= x) by (apply Qnot_lt_le; intro H; apply Qlt_bool_iff in H; congruence).
    rewrite Qabs_pos in Hx by exact H0.
    destruct (Qle_bool (inject_Z (10 ^ 21)) x) eqn:Eb.
    + apply Qle_bool_iff in Eb. lra.
    + rewrite (scaled_close _ x n Hp Hc). reflexivity.
Qed.

Lemma Math_round_near (y : Q) : Qabs (inject_Z (Math_round y) - y) <= 1 # 2.
Proof. apply round_near. Qed.

Lemma Math_round_close (y : Q) (z : Z) : Qabs (y - inject_Z z) < 1 # 2 -> Math_round y = z.
Proof.
  intros H. apply Qabs_Qlt_condition in H. unfold Math_round.
  apply Qfloor_unique; lra.
Qed.

(** Two integers less than 2 apart are at most 1 apart. *)
Lemma int_gap (w z : Z) : Qabs (inject_Z w - inject_Z z) < 2 -> Qabs (inject_Z w - inject_Z z) <= 1.
Proof.
  intros H. apply Qabs_Qlt_condition in H. destruct H as [H1 H2].
  assert (A : inject_Z w < inject_Z (z + 2)) by (rewrite inject_Z_plus; change (inject_Z 2) with 2; lra).
  assert (B : inject_Z z < inject_Z (w + 2)) by (rewrite inject_Z_plus; change (inject_Z 2) with 2; lra).
  rewrite <- Zlt_Qlt in A, B.
  assert (C : inject_Z w <= inject_Z (z + 1)) by (rewrite <- Zle_Qle; lia).
  assert (D : inject_Z z <= inject_Z (w + 1)) by (rewrite <- Zle_Qle; lia).
  rewrite inject_Z_plus in C, D. change (inject_Z 1) with 1 in C, D.
  apply Qabs_Qle_condition. split; lra.
Qed.

Lemma flog2_le (x : Q) : 0 < x -> 2 ^ flog2 x <= x.
Proof.
  intros Hx. unfold flog2.
  destruct (Qle_bool (2 ^ (Z.log2 (Qnum x) - Z.log2 (Zpos (Qden x)))) x) eqn:E.
  { apply Qle_bool_iff; exact E. }
  clear E. destruct x as [n d]. cbn [Qnum Qden].
  assert (Hn : (0 < n)%Z) by (unfold Qlt in Hx; simpl in Hx; lia).
  destruct (Z.log2_spec n Hn) as [Hn1 _].
  destruct (Z.log2_spec (Zpos d) eq_refl) as [_ Hd2].
  pose proof (Z.log2_nonneg n). pose proof (Z.log2_nonneg (Zpos d)).
  replace (Z.log2 n - Z.log2 (Zpos d) - 1)%Z with (Z.log2 n - Z.succ (Z.log2 (Zpos d)))%Z by lia.
  rewrite Qpower_minus by discriminate.
  change (2 ^ Z.log2 n) with (inject_Z 2 ^ Z.log2 n).
  change (2 ^ Z.succ (Z.log2 (Zpos d))) with (inject_Z 2 ^ Z.succ (Z.log2 (Zpos d))).
  rewrite <- !Zpower_Qpower by lia.
  assert (HP : (0 < 2 ^ Z.succ (Z.log2 (Zpos d)))%Z) by (apply Z.pow_pos_nonneg; lia).
  assert (HL : (0 < 2 ^ Z.log2 n)%Z) by (apply Z.pow_pos_nonneg; lia).
  apply Qle_shift_div_r.
  { change 0 with (inject_Z 0). rewrite <- Zlt_Qlt. exact HP. }
  rewrite Qmake_Qdiv.
  setoid_replace (inject_Z n / inject_Z (Zpos d) * inject_Z (2 ^ Z.succ (Z.log2 (Zpos d))))
    with (inject_Z n * inject_Z (2 ^ Z.succ (Z.log2 (Zpos d))) / inject_Z (Zpos d))
    by (field; unfold Qeq; simpl; lia).
  apply Qle_shift_div_l.
  { change 0 with (inject_Z 0). rewrite <- Zlt_Qlt. lia. }
  rewrite <- !inject_Z_mult, <- Zle_Qle. nia.
Qed.

Lemma roundHalfEven_near (y : Q) : Qabs (inject_Z (roundHalfEven y) - y) <= 1 # 2.
Proof.
  pose proof (Qfloor_le y) as H1. pose proof (Qlt_floor y) as H2.
  rewrite inject_Z_plus in H2. change (inject_Z 1) with 1 in H2.
  unfold roundHalfEven.
  destruct (Qlt_bool (y - inject_Z (Qfloor y)) (1 # 2)) eqn:E1.
  { apply Qlt_bool_iff in E1. apply Qabs_Qle_condition. split; lra. }
  assert (E1' : 1 # 2 <= y - inject_Z (Qfloor y)).
  { apply Qnot_lt_le. intro H. apply Qlt_bool_iff in H. congruence. }
  assert (Hs : Qabs (inject_Z (Qfloor y + 1) - y) <= 1 # 2).
  { rewrite inject_Z_plus. change (inject_Z 1) with 1. apply Qabs_Qle_condition. split; lra. }
  destruct (Qlt_bool (1 # 2) (y - inject_Z (Qfloor y))) eqn:E2; [exact Hs|].
  assert (E2' : y - inject_Z (Qfloor y) <= 1 # 2).
  { apply Qnot_lt_le. intro H. apply Qlt_bool_iff in H. congruence. }
  destruct (Z.even (Qfloor y)); [|exact Hs].
  apply Qabs_Qle_condition. split; lra.
Qed.

Lemma pow2_52 : 2 ^ 52 == 4503599627370496.
Proof. reflexivity. Qed.

Lemma toDouble_err (x : Q) : Qabs (toDouble x - x) <= (Qabs x + 1) * ulp53.
Proof.
  unfold toDouble.
  destruct (Qeq_bool x 0) eqn:E0.
  { apply Qeq_bool_iff in E0. rewrite E0. unfold ulp53. cbn. discriminate. }
  assert (Hx0 : ~ x == 0) by (intro H; apply Qeq_bool_iff in H; congruence).
  assert (Hax : 0 < Qabs x).
  { destruct (Qlt_le_dec x 0) as [H|H].
    - rewrite Qabs_neg by lra. lra.
    - rewrite Qabs_pos by exact H. apply Qle_lteq in H. destruct H as [H|H]; [exact H|].
      exfalso. apply Hx0. symmetry. exact H. }
  set (ax := Qabs x) in *.
  set (qe := Z.max (flog2 ax - 52) (-1074)).
  assert (Hs : 0 < 2 ^ qe) by (apply Qpower_0_lt; reflexivity).
  set (s := 2 ^ qe) in *.
  assert (Hm : Qabs (inject_Z (roundHalfEven (ax / s)) * s - ax) <= s * (1 # 2)).
  { setoid_replace (inject_Z (roundHalfEven (ax / s)) * s - ax)
      with ((inject_Z (roundHalfEven (ax / s)) - ax / s) * s)
      by (field; apply (Qnot_eq_sym _ _ (Qlt_not_eq _ _ Hs))).
    rewrite Qabs_Qmult, (Qabs_pos s) by lra.
    rewrite (Qmult_comm s (1 # 2)). apply Qmult_le_compat_r; [apply roundHalfEven_near | lra]. }
  assert (Hb : s * (1 # 2) <= (ax + 1) * ulp53).
  { unfold s, qe. destruct (Z.max_spec (flog2 ax - 52) (-1074)) as [[_ H]|[_ H]]; rewrite H.
    - assert (Hc : 2 ^ (-1074) * (1 # 2) <= ulp53) by (apply Qle_bool_iff; vm_compute; reflexivity).
      unfold ulp53 in *. lra.
    - rewrite Qpower_minus by discriminate. rewrite pow2_52.
      pose proof (flog2_le ax Hax) as HP. set (P := 2 ^ flog2 ax) in *.
      setoid_replace (P / 4503599627370496 * (1 # 2)) with (P * ulp53) by (unfold ulp53; field).
      unfold ulp53. lra. }
  destruct (Qlt_bool x 0) eqn:Es.
  - apply Qlt_bool_iff in Es. assert (Hx : x == - ax) by (unfold ax; rewrite Qabs_neg by lra; ring).
    rewrite Hx. setoid_replace (- (inject_Z (roundHalfEven (ax / s)) * s) - - ax)
      with (- (inject_Z (roundHalfEven (ax / s)) * s - ax)) by ring.
    rewrite Qabs_opp. lra.
  - assert (Hx : x == ax).
    { unfold ax. rewrite Qabs_pos; [reflexivity|]. apply Qnot_lt_le. intro H. apply Qlt_bool_iff in H. congruence. }
    rewrite Hx at 1. lra.
Qed.

Lemma toDouble_close (x y : Q) : x == y -> Qabs y <= 10000000000 ->
  - (1 # 500000) <= toDouble x - y <= 1 # 500000.
Proof.
  intros Hxy Hy. pose proof (toDouble_err x) as H. revert H.
  generalize (toDouble x) as d. intros d H. rewrite Hxy in H.
  unfold ulp53 in H. apply Qabs_Qle_condition in H. split; lra.
Qed.

Lemma c254_val : toDouble 2.54 = 5719571526760530 # 2251799813685248.
Proof. vm_compute. reflexivity. Qed.

(** Abstract the double [toDouble x], close to the linear form [y]. *)
Ltac dbl_step x y v H :=
  pose proof (toDouble_close x y ltac:(reflexivity) ltac:(apply Qabs_Qle_condition; split; lra)) as H;
  set (v := toDouble x) in *; clearbody v.

Ltac round_step x k H :=
  pose proof (Math_round_near x) as H; apply Qabs_Qle_condition in H;
  set (k := Math_round x) in *; clearbody k.

Lemma thickness_roundtrip_metric (v : Q) (z : Z) :
  v == inject_Z z / 100 -> Qabs v < 1000000000 ->
  App.fieldEqv (App.convertThickness metric (App.convertThickness imperial (App.FNum v))) (App.FNum v).
Proof.
  intros Hz Hv. cbn [App.convertThickness App.parseFloat App.fieldEqv].
  rewrite c254_val. apply Qabs_Qlt_condition in Hv.
  dbl_step v v a Ha.
  dbl_step (a / (5719571526760530 # 2251799813685248)) (a * (2251799813685248 # 5719571526760530)) q Hq.
  assert (Hq21 : Qabs q < inject_Z (10 ^ 21)).
  { change (inject_Z (10 ^ 21)) with 1000000000000000000000. apply Qabs_Qlt_condition. split; lra. }
  pose proof (toFixed_near 3 q Hq21) as Hw.
  change (inject_Z (10 ^ Z.of_nat 3)) with 1000 in Hw.
  setoid_replace ((1 # 2) / 1000) with (1 # 2000) in Hw by reflexivity.
  apply Qabs_Qle_condition in Hw.
  set (w := App.toFixed 3 q) in *; clearbody w.
  dbl_step w w a' Ha'.
  dbl_step (a' * (5719571526760530 # 2251799813685248)) (a' * (5719571526760530 # 2251799813685248)) p Hp.
  rewrite (toFixed_close 2 p z).
  - change (inject_Z (10 ^ Z.of_nat 2)) with 100. symmetry. exact Hz.
  - change (inject_Z (10 ^ 21)) with 1000000000000000000000.
    apply Qabs_Qlt_condition. split; lra.
  - change (inject_Z (10 ^ Z.of_nat 2)) with 100.
    setoid_replace (inject_Z z / 100) with v by (symmetry; exact Hz).
    setoid_replace ((1 # 2) / 100) with (1 # 200) by reflexivity.
    apply Qabs_Qlt_condition. split; lra.
Qed.

Lemma thickness_drift_imperial (v : Q) :
  Qabs v < 1000000000 ->
  App.fieldWithin (1 # 400) (App.convertThickness imperial (App.convertThickness metric (App.FNum v))) (App.FNum v).
Proof.
  intros Hv. cbn [App.convertThickness App.parseFloat App.fieldWithin].
  rewrite c254_val. apply Qabs_Qlt_condition in Hv.
  dbl_step v v a Ha.
  dbl_step (a * (5719571526760530 # 2251799813685248)) (a * (5719571526760530 # 2251799813685248)) p Hp.
  assert (Hp21 : Qabs p < inject_Z (10 ^ 21)).
  { change (inject_Z (10 ^ 21)) with 1000000000000000000000. apply Qabs_Qlt_condition. split; lra. }
  pose proof (toFixed_near 2 p Hp21) as Hw.
  change (inject_Z (10 ^ Z.of_nat 2)) with 100 in Hw.
  setoid_replace ((1 # 2) / 100) with (1 # 200) in Hw by reflexivity.
  apply Qabs_Qle_condition in Hw.
  set (w := App.toFixed 2 p) in *; clearbody w.
  dbl_step w w a' Ha'.
  dbl_step (a' / (5719571526760530 # 2251799813685248)) (a' * (2251799813685248 # 5719571526760530)) q Hq.
  assert (Hq21 : Qabs q < inject_Z (10 ^ 21)).
  { change (inject_Z (10 ^ 21)) with 1000000000000000000000. apply Qabs_Qlt_condition. split; lra. }
  pose proof (toFixed_near 3 q Hq21) as Hv'.
  change (inject_Z (10 ^ Z.of_nat 3)) with 1000 in Hv'.
  setoid_replace ((1 # 2) / 1000) with (1 # 2000) in Hv' by reflexivity.
  apply Qabs_Qle_condition in Hv'.
  apply Qabs_Qle_condition. split; lra.
Qed.

Lemma temp_roundtrip_metric (f : App.Field) :
  App.integralField f -> App.boundedField 1000000000 f ->
  App.fieldEqv (App.convertTempField metric (App.convertTempField imperial f)) f.
Proof.
  destruct f as [|v]; cbn [App.convertTempField App.fieldEqv App.integralField App.boundedField]; [tauto|].
  intros [z Hz] Hv. apply Qabs_Qlt_condition in Hv. unfold App.toC, App.toF.
  dbl_step v v a Ha.
  dbl_step (a * 9) (a * 9) t1 H1.
  dbl_step (t1 / 5) (t1 * (1 # 5)) t2 H2.
  dbl_step (t2 + 32) (t2 + 32) t3 H3.
  round_step t3 k Hk.
  dbl_step (inject_Z k) (inject_Z k) b Hb.
  dbl_step (b - 32) (b - 32) u1 Hu1.
  dbl_step (u1 * 5) (u1 * 5) u2 Hu2.
  dbl_step (u2 / 9) (u2 * (1 # 9)) u3 Hu3.
  rewrite (Math_round_close u3 z).
  - rewrite Hz. reflexivity.
  - rewrite Hz in Ha. apply Qabs_Qlt_condition. split; lra.
Qed.

Lemma temp_drift_imperial (f : App.Field) :
  App.integralField f -> App.boundedField 1000000000 f ->
  App.fieldWithin 1 (App.convertTempField imperial (App.convertTempField metric f)) f.
Proof.
  destruct f as [|v]; cbn [App.convertTempField App.fieldWithin App.integralField App.boundedField]; [tauto|].
  intros [z Hz] Hv. apply Qabs_Qlt_condition in Hv. unfold App.toC, App.toF.
  dbl_step v v a Ha.
  dbl_step (a - 32) (a - 32) u1 Hu1.
  dbl_step (u1 * 5) (u1 * 5) u2 Hu2.
  dbl_step (u2 / 9) (u2 * (1 # 9)) u3 Hu3.
  round_step u3 k Hk.
  dbl_step (inject_Z k) (inject_Z k) b Hb.
  dbl_step (b * 9) (b * 9) t1 H1.
  dbl_step (t1 / 5) (t1 * (1 # 5)) t2 H2.
  dbl_step (t2 + 32) (t2 + 32) t3 H3.
  round_step t3 w Hw.
  rewrite Hz. rewrite Hz in Ha. apply int_gap.
  apply Qabs_Qlt_condition. split; lra.
Qed.

Lemma rate_roundtrip_metric (f : App.Field) :
  App.integralField f -> App.boundedField 1000000000 f ->
  App.fieldEqv (App.convertRateField metric (App.convertRateField imperial f)) f.
Proof.
  destruct f as [|v]; cbn [App.convertRateField App.fieldEqv App.integralField App.boundedField]; [tauto|].
  intros [z Hz] Hv. apply Qabs_Qlt_condition in Hv.
  dbl_step v v a Ha.
  dbl_step (a * 9) (a * 9) t1 H1.
  dbl_step (t1 / 5) (t1 * (1 # 5)) t2 H2.
  round_step t2 k Hk.
  dbl_step (inject_Z k) (inject_Z k) b Hb.
  dbl_step (b * 5) (b * 5) u1 Hu1.
  dbl_step (u1 / 9) (u1 * (1 # 9)) u2 Hu2.
  rewrite (Math_round_close u2 z).
  - rewrite Hz. reflexivity.
  - rewrite Hz in Ha. apply Qabs_Qlt_condition. split; lra.
Qed.

Lemma rate_drift_imperial (f : App.Field) :
  App.integralField f -> App.boundedField 1000000000 f ->
  App.fieldWithin 1 (App.convertRateField imperial (App.convertRateField metric f)) f.
Proof.
  destruct f as [|v]; cbn [App.convertRateField App.fieldWithin App.integralField App.boundedField]; [tauto|].
  intros [z Hz] Hv. apply Qabs_Qlt_condition in Hv.
  dbl_step v v a Ha.
  dbl_step (a * 5) (a * 5) u1 Hu1.
  dbl_step (u1 / 9) (u1 * (1 # 9)) u2 Hu2.
  round_step u2 k Hk.
  dbl_step (inject_Z k) (inject_Z k) b Hb.
  dbl_step (b * 9) (b * 9) t1 H1.
  dbl_step (t1 / 5) (t1 * (1 # 5)) t2 H2.
  round_step t2 w Hw.
  rewrite Hz. rewrite Hz in Ha. apply int_gap.
  apply Qabs_Qlt_condition. split; lra.
Qed.

Lemma countIndefinite_schedule (a : CalculateScheduleArgs) :
  countIndefinite (points (calculateSchedule a)) =
  if negb (isAnnealOnly (mode a)) && truthyBool (processHoldIndefinite a) then 1%nat else 0%nat.
Proof.
  unfold calculateSchedule, schedulePoints, firingPoints, holdLabel. cbn [points].
  destruct (isAnnealOnly (mode a)); [reflexivity|].
  cbn [negb andb]. destruct (isCast (mode a)), (moldDryGate a), (truthyBool (processHoldIndefinite a)); reflexivity.
Qed.

(** X2. At most one waypoint is labelled "Indefinite": exactly one in a
    firing mode with [processHoldIndefinite] truthy, none otherwise. *)
Theorem indefinite_count (a : CalculateScheduleArgs) :
  countIndefinite (points (calculateSchedule a)) =
  if negb (isAnnealOnly (mode a)) && truthyBool (processHoldIndefinite a) then 1%nat else 0%nat.
Proof. exact (countIndefinite_schedule a). Qed.


Lemma handleCalculateArgs_None_iff (s : App.State) :
  App.handleCalculateArgs s = None <->
  App.thickness s = App.FEmpty \/
  (isCustom (App.glassType s) = true /\
   (App.customAnneal s = App.FEmpty \/ App.customStrain s = App.FEmpty)).
Proof.
  unfold App.handleCalculateArgs.
  destruct (App.thickness s) as [|t]; cbn [App.parseFloat]; [tauto|].
  destruct (isCustom (App.glassType s)); cbn [andb orb].
  - destruct (App.customAnneal s), (App.customStrain s); cbn;
      split; intros H; try discriminate; try tauto;
      destruct H as [H|[_ [H|H]]]; discriminate.
  - split; intros H; [discriminate|]. destruct H as [H|[H _]]; discriminate.
Qed.

(** X11. [handleCalculate] refuses the form exactly when the thickness
    field is empty, or the glass is Custom and its anneal or strain field
    is empty. *)
Theorem handleCalculate_refuses (s : App.State) :
  App.handleCalculateArgs s = None <->
  App.thickness s = App.FEmpty \/
  (isCustom (App.glassType s) = true /\
   (App.customAnneal s = App.FEmpty \/ App.customStrain s = App.FEmpty)).
Proof. exact (handleCalculateArgs_None_iff s). Qed.

Lemma handleCalculateArgs_Some_shape (s : App.State) (a : CalculateScheduleArgs) :
  App.handleCalculateArgs s = Some a ->
  processHoldIndefinite a = None /\
  (isAnnealOnly (App.scheduleMode s) = true ->
   customProcessTemp a = None /\ customProcessHoldMins a = None /\
   customProcessRamp a = None /\ moldDryHours a = None /\ moldDryTemp a = None) /\
  (isCast (App.scheduleMode s) = false -> moldDryHours a = None /\ moldDryTemp a = None).
Proof.
  unfold App.handleCalculateArgs.
  destruct (App.parseFloat (App.thickness s)); [|discriminate].
  match goal with |- context [if ?b then None else _] => destruct b end; [discriminate|].
  intros H; injection H as <-. cbn.
  split; [reflexivity|]. split.
  - intros ->. cbn. repeat split.
  - intros ->. rewrite !andb_false_r. cbn. split; reflexivity.
Qed.

(** X12. [handleCalculate] never passes [processHoldIndefinite]; in
    anneal-only mode it passes no process or mold-dry value, and outside
    cast mode no mold-dry value. *)
Theorem handleCalculate_args_shape (s : App.State) (a : CalculateScheduleArgs) :
  App.handleCalculateArgs s = Some a ->
  processHoldIndefinite a = None /\
  (isAnnealOnly (App.scheduleMode s) = true ->
   customProcessTemp a = None /\ customProcessHoldMins a = None /\
   customProcessRamp a = None /\ moldDryHours a = None /\ moldDryTemp a = None) /\
  (isCast (App.scheduleMode s) = false -> moldDryHours a = None /\ moldDryTemp a = None).
Proof. exact (handleCalculateArgs_Some_shape s a). Qed.


Lemma toggle_fields (s : App.State) :
  let u := App.otherUnits (App.units s) in
  let s' := App.toggleUnits s in
  App.glassType s' = App.glassType s /\ App.scheduleMode s' = App.scheduleMode s /\
  App.thickness s' = App.convertThickness u (App.thickness s) /\ App.units s' = u /\
  App.shape s' = App.shape s /\ App.conservativeness s' = App.conservativeness s /\
  App.customAnneal s' = App.convertTempField u (App.customAnneal s) /\
  App.customStrain s' = App.convertTempField u (App.customStrain s) /\
  App.processTemp s' = App.convertTempField u (App.processTemp s) /\
  App.processHold s' = App.processHold s /\
  App.processRamp s' = App.convertRateField u (App.processRamp s) /\
  App.moldDryHours s' = App.moldDryHours s /\
  App.moldDryTemp s' = App.convertTempField u (App.moldDryTemp s).
Proof.
  cbv zeta. unfold App.toggleUnits.
  destruct (App.result s); [destruct (App.parseFloat _)|]; cbn; repeat split.
Qed.

(** X14. In double precision, toggling the units twice from metric
    restores every converted field below 10^9 in magnitude whose value is
    an integer (temperatures and ramp) or a multiple of 0.01 (thickness),
    and leaves the hold and dry hours unchanged. *)
Theorem toggle_twice_from_metric (s : App.State) :
  App.units s = metric ->
  App.integralField (App.customAnneal s) -> App.integralField (App.customStrain s) ->
  App.integralField (App.processTemp s) -> App.integralField (App.processRamp s) ->
  App.integralField (App.moldDryTemp s) ->
  (forall v, App.thickness s = App.FNum v -> exists z, v == inject_Z z / 100) ->
  App.fieldsBelow 1000000000 s ->
  let s2 := App.toggleUnits (App.toggleUnits s) in
  App.units s2 = metric /\
  App.fieldEqv (App.thickness s2) (App.thickness s) /\
  App.fieldEqv (App.customAnneal s2) (App.customAnneal s) /\
  App.fieldEqv (App.customStrain s2) (App.customStrain s) /\
  App.fieldEqv (App.processTemp s2) (App.processTemp s) /\
  App.fieldEqv (App.processRamp s2) (App.processRamp s) /\
  App.fieldEqv (App.moldDryTemp s2) (App.moldDryTemp s) /\
  App.processHold s2 = App.processHold s /\ App.moldDryHours s2 = App.moldDryHours s.
Proof.
  intros Hu Ha Hs Hp Hr Hm Ht (Bt & Ba & Bs & Bp & Br & Bm). cbv zeta.
  destruct (toggle_fields (App.toggleUnits s)) as (_ & _ & T2 & U2 & _ & _ & A2 & S2 & P2 & H2 & R2 & D2 & M2).
  destruct (toggle_fields s) as (_ & _ & T1 & U1 & _ & _ & A1 & S1 & P1 & H1 & R1 & D1 & M1).
  rewrite U1, Hu in *. cbn [App.otherUnits] in *.
  rewrite T2, A2, S2, P2, H2, R2, D2, M2, T1, A1, S1, P1, H1, R1, D1, M1, U2.
  repeat split;
    try (apply temp_roundtrip_metric; assumption);
    try (apply rate_roundtrip_metric; assumption).
  destruct (App.thickness s) as [|v] eqn:Ev; [exact I|].
  destruct (Ht v eq_refl) as [z Hz].
  apply (thickness_roundtrip_metric v z Hz Bt).
Qed.

(** X15. In double precision, toggling the units twice from imperial
    moves each integer temperature or ramp field by at most 1 and the
    thickness by at most 1/400, when the converted fields are below 10^9
    in magnitude, and leaves the hold and dry hours unchanged. *)
Theorem toggle_twice_from_imperial (s : App.State) :
  App.units s = imperial ->
  App.integralField (App.customAnneal s) -> App.integralField (App.customStrain s) ->
  App.integralField (App.processTemp s) -> App.integralField (App.processRamp s) ->
  App.integralField (App.moldDryTemp s) ->
  App.fieldsBelow 1000000000 s ->
  let s2 := App.toggleUnits (App.toggleUnits s) in
  App.units s2 = imperial /\
  App.fieldWithin (1 # 400) (App.thickness s2) (App.thickness s) /\
  App.fieldWithin 1 (App.customAnneal s2) (App.customAnneal s) /\
  App.fieldWithin 1 (App.customStrain s2) (App.customStrain s) /\
  App.fieldWithin 1 (App.processTemp s2) (App.processTemp s) /\
  App.fieldWithin 1 (App.processRamp s2) (App.processRamp s) /\
  App.fieldWithin 1 (App.moldDryTemp s2) (App.moldDryTemp s) /\
  App.processHold s2 = App.processHold s /\ App.moldDryHours s2 = App.moldDryHours s.
Proof.
  intros Hu Ha Hs Hp Hr Hm (Bt & Ba & Bs & Bp & Br & Bm). cbv zeta.
  destruct (toggle_fields (App.toggleUnits s)) as (_ & _ & T2 & U2 & _ & _ & A2 & S2 & P2 & H2 & R2 & D2 & M2).
  destruct (toggle_fields s) as (_ & _ & T1 & U1 & _ & _ & A1 & S1 & P1 & H1 & R1 & D1 & M1).
  rewrite U1, Hu in *. cbn [App.otherUnits] in *.
  rewrite T2, A2, S2, P2, H2, R2, D2, M2, T1, A1, S1, P1, H1, R1, D1, M1, U2.
  repeat split;
    try (apply temp_drift_imperial; assumption);
    try (apply rate_drift_imperial; assumption).
  destruct (App.thickness s) as [|v] eqn:Ev; [exact I|].
  apply (thickness_drift_imperial v Bt).
Qed.

(** X16. When a result is shown and the Custom fields are filled in, the
    schedule recomputed by the toggle equals the one Calculate gives on
    the toggled form. *)
Theorem toggle_recalc_agrees (s : App.State) :
  App.result s <> None ->
  ~ (isCustom (App.glassType s) = true /\
     (App.customAnneal s = App.FEmpty \/ App.customStrain s = App.FEmpty)) ->
  App.result (App.handleCalculate (App.toggleUnits s)) = App.result (App.toggleUnits s).
Proof.
  intros Hr Hc. destruct (App.result s) as [r|] eqn:Er; [|congruence].
  unfold App.handleCalculate, App.handleCalculateArgs, App.toggleUnits. rewrite Er.
  destruct (App.parseFloat (App.convertThickness (App.otherUnits (App.units s)) (App.thickness s))) as [t|] eqn:Et;
    cbn [App.result App.thickness App.setResult]; rewrite Et; [|reflexivity].
  cbn [App.glassType App.customAnneal App.customStrain App.scheduleMode App.units App.shape
       App.conservativeness App.processTemp App.processHold App.processRamp App.moldDryHours
       App.moldDryTemp App.result App.setResult].
  destruct (isCustom (App.glassType s)) eqn:Eg; [|reflexivity].
  destruct (App.customAnneal s) as [|va]; [exfalso; apply Hc; tauto|].
  destruct (App.customStrain s) as [|vs]; [exfalso; apply Hc; tauto|].
  destruct (App.units s); reflexivity.
Qed.

(** X17. The toggle recomputes a shown Custom schedule even when the
    anneal field is empty, which Calculate refuses: the engine gets no
    anneal temperature. *)
Theorem toggle_skips_custom_check (s : App.State) (r : ScheduleResult) (t : Q) :
  isCustom (App.glassType s) = true -> App.customAnneal s = App.FEmpty ->
  App.result s = Some r -> App.thickness s = App.FNum t ->
  App.handleCalculateArgs (App.toggleUnits s) = None /\
  exists a, glassType a = Custom /\ customAnneal a = None /\
    App.result (App.toggleUnits s) = Some (calculateSchedule a) /\
    App.chartVersion (App.toggleUnits s) = S (App.chartVersion s).
Proof.
  intros Hg Ha Hr Ht. split.
  - apply handleCalculateArgs_None_iff. right.
    destruct (toggle_fields s) as (G & _ & _ & _ & _ & _ & A & _).
    rewrite G, A, Ha. split; [exact Hg | left; reflexivity].
  - unfold App.toggleUnits. rewrite Hr, Ht, Ha, Hg.
    unfold App.convertThickness. cbn [App.parseFloat App.convertTempField].
    destruct (App.otherUnits (App.units s));
      cbn [App.parseFloat App.result App.setResult App.chartVersion];
      (eexists; split; [|split; [|split; reflexivity]]);
      [destruct (App.glassType s); try discriminate; reflexivity | reflexivity
      |destruct (App.glassType s); try discriminate; reflexivity | reflexivity].
Qed.

(** X18. With an empty thickness field, the toggle flips the units but
    keeps the result computed in the old units, without a new chart. *)
Theorem toggle_empty_thickness_keeps_result (s : App.State) :
  App.thickness s = App.FEmpty ->
  App.result (App.toggleUnits s) = App.result s /\
  App.chartVersion (App.toggleUnits s) = App.chartVersion s /\
  App.units (App.toggleUnits s) = App.otherUnits (App.units s).
Proof.
  intros Ht. unfold App.toggleUnits. rewrite Ht.
  unfold App.convertThickness. cbn [App.parseFloat].
  destruct (App.result s); cbn; repeat split.
Qed.



(** X13. In every state the app can reach, the displayed schedule has
    no waypoint labelled "Indefinite". *)
Theorem reachable_no_indefinite (s : App.State) : reachable s -> noIndefinite s.
Proof.
  induction 1 as [|s s' _ IH Hst]; [exact I|].
  destruct Hst as [s|s|s s' _ Hr _].
  - unfold App.handleCalculate. destruct (App.handleCalculateArgs s) as [a|] eqn:E; [|exact IH].
    unfold noIndefinite. cbn [App.setResult App.result].
    rewrite countIndefinite_schedule. destruct (handleCalculateArgs_Some_shape s a E) as [-> _].
    cbn. destruct (negb _); reflexivity.
  - unfold App.toggleUnits.
    destruct (App.result s) eqn:Er; [|unfold noIndefinite; cbn; exact I].
    destruct (App.parseFloat _).
    + unfold noIndefinite. cbn [App.setResult App.result].
      rewrite countIndefinite_schedule. cbn. destruct (negb _); reflexivity.
    + unfold noIndefinite in *. cbn. rewrite Er in IH. exact IH.
  - unfold noIndefinite in *. rewrite Hr. exact IH.
Qed.


Lemma rampToProcessRateOf_nonzero (a : CalculateScheduleArgs) (eff : Q) :
  ~ rampToProcessRateOf a eff == 0.
Proof.
  unfold rampToProcessRateOf, ifTruthy.
  destruct (customProcessRamp a) as [c|].
  - destruct (Qeq_bool c 0) eqn:E.
    + destruct (Qlt_bool 50 eff), (Qlt_bool 25 eff); discriminate.
    + apply Qeq_bool_neq in E. destruct (units a); [|exact E].
      intros H. apply E.
      setoid_replace c with (c * 9 / 5 * (5 # 9)) by field. rewrite H. reflexivity.
  - destruct (Qlt_bool 50 eff), (Qlt_bool 25 eff); discriminate.
Qed.

Lemma moldDryGate_cast (a : CalculateScheduleArgs) (h : Q) :
  moldDryGate a = Some h -> mode a = cast.
Proof.
  unfold moldDryGate. destruct (moldDryHours a); [|discriminate].
  destruct (mode a); cbn; try discriminate. reflexivity.
Qed.

Lemma Qplus_shift (t t' h d : Q) : t == t' + h -> t + d == (t' + d) + h.
Proof. intros H. rewrite H. ring. Qed.

Lemma ramp_telescope (x y z h R : Q) : ~ R == 0 ->
  0 + (y - x) / R + h + (z - y) / R == (0 + (z - x) / R) + h.
Proof. intros HR. field. exact HR. Qed.

(** X3. A mold dry inserts two waypoints after the start and delays
    every later waypoint by the dry hours: temperatures, labels and
    segment types are those of the schedule without the mold dry. *)
Theorem mold_dry_shifts_later_points (a : CalculateScheduleArgs) (h : Q) :
  moldDryGate a = Some h ->
  Forall2 (fun p q => time p == time q + h /\ temp p = temp q
                      /\ label p = label q /\ segment_type p = segment_type q)
    (skipn 3 (points (calculateSchedule a)))
    (skipn 1 (points (calculateSchedule (withMoldDryHours a None)))).
Proof.
  intros Hg.
  pose proof (moldDryGate_cast a h Hg) as Hc.
  pose proof (rampToProcessRateOf_nonzero a (effectiveThicknessMm a)) as HR.
  unfold calculateSchedule. cbn [points].
  change (resolve (withMoldDryHours a None)) with (resolve a).
  unfold schedulePoints, firingPoints.
  change (moldDryGate (withMoldDryHours a None)) with (@None Q).
  rewrite Hg.
  change (mode (withMoldDryHours a None)) with (mode a).
  change (units (withMoldDryHours a None)) with (units a).
  change (holdLabel (withMoldDryHours a None)) with (holdLabel a).
  rewrite Hc. cbn [isAnnealOnly negb isCast].
  cbn [skipn app].
  repeat constructor; cbn [time]; repeat apply Qplus_shift; apply ramp_telescope; exact HR.
Qed.


Lemma Qle_bool_false_lt (x y : Q) : Qle_bool x y = false -> y < x.
Proof.
  intros E. apply Qnot_le_lt. intros H. apply Qle_bool_iff in H. congruence.
Qed.

Lemma Math_max_mono_r (c x y : Q) : x <= y -> Math_max c x <= Math_max c y.
Proof.
  intros H. unfold Math_max.
  destruct (Qle_bool c x) eqn:E1, (Qle_bool c y) eqn:E2.
  - exact H.
  - apply Qle_bool_false_lt in E2. apply Qle_bool_iff in E1. lra.
  - apply Qle_bool_iff in E2. exact E2.
  - apply Qle_refl.
Qed.

Lemma capAt_le (cap r : Q) : capAt cap r <= cap.
Proof.
  unfold capAt. destruct (Qlt_bool cap r) eqn:E; [apply Qle_refl|].
  apply Qlt_bool_false_iff in E. exact E.
Qed.

Lemma thicknessMm_mono (u : UnitSystem) (t1 t2 : Q) :
  t1 <= t2 -> thicknessMm u t1 <= thicknessMm u t2.
Proof. intros H. destruct u; unfold thicknessMm; lra. Qed.

Lemma effectiveThicknessMm_mono (a : CalculateScheduleArgs) (t1 t2 : Q) :
  t1 <= t2 ->
  effectiveThicknessMm (withThickness a t1) <= effectiveThicknessMm (withThickness a t2).
Proof.
  intros H. unfold effectiveThicknessMm. cbn [units thickness shape withThickness].
  apply Qmult_le_compat_r; [apply thicknessMm_mono; exact H|].
  destruct (shape a); discriminate.
Qed.

Lemma Qdiv_anti (c e1 e2 : Q) : 0 < c -> 0 < e1 -> e1 <= e2 -> c / e2 <= c / e1.
Proof.
  intros Hc H1 H12.
  apply Qle_shift_div_r; [lra|].
  setoid_replace (c / e1 * e2) with ((c * e2) / e1) by (field; lra).
  apply Qle_shift_div_l; [lra|].
  apply Qmult_le_l; [exact Hc|exact H12].
Qed.

Lemma Math_pow2_mono (u v : Q) : 0 <= u -> u <= v -> Math_pow2 u <= Math_pow2 v.
Proof.
  intros H0 H. unfold Math_pow2. apply Qmult_le_compat_nonneg; split; assumption.
Qed.

Lemma coolingRate_C_anti_eff (base e1 e2 bf sf : Q) :
  0 < base -> 0 < bf -> 0 < sf -> 0 < e1 -> e1 <= e2 ->
  coolingRate_C base e2 bf sf <= coolingRate_C base e1 bf sf.
Proof.
  intros Hb Hf Hs H1 H12. unfold coolingRate_C.
  apply Qle_shift_div_r; [exact Hs|].
  setoid_replace (base * Math_pow2 (25 / e1) * bf / sf * sf)
    with (base * Math_pow2 (25 / e1) * bf) by (field; lra).
  apply Qmult_le_compat_r; [|lra].
  apply Qmult_le_l; [exact Hb|].
  apply Math_pow2_mono.
  - apply Qlt_le_weak. apply Qlt_shift_div_l; lra.
  - apply Qdiv_anti; [reflexivity|exact H1|exact H12].
Qed.

Lemma rampToProcessRateOf_anti (a : CalculateScheduleArgs) (e1 e2 : Q) :
  e1 <= e2 -> rampToProcessRateOf a e2 <= rampToProcessRateOf a e1.
Proof.
  intros H. unfold rampToProcessRateOf, ifTruthy.
  destruct (customProcessRamp a) as [c|];
    [destruct (Qeq_bool c 0); [|apply Qle_refl]|].
  all: destruct (Qlt_bool 50 e1) eqn:A1, (Qlt_bool 25 e1) eqn:B1,
         (Qlt_bool 50 e2) eqn:A2, (Qlt_bool 25 e2) eqn:B2;
       rewrite ?Qlt_bool_iff, ?Qlt_bool_false_iff in *; lra.
Qed.

(** X4. For the same other inputs, thicker glass never gets a shorter
    anneal soak, nor a faster Rate 1, Rate 2 or ramp to process. *)
Theorem thicker_glass_never_faster (a : CalculateScheduleArgs) (t1 t2 : Q) :
  0 < t1 -> t1 <= t2 ->
  let r1 := resolve (withThickness a t1) in
  let r2 := resolve (withThickness a t2) in
  annealSoakHours r1 <= annealSoakHours r2 /\ rate1_F r2 <= rate1_F r1 /\ rate2_F r2 <= rate2_F r1 /\ rampToProcessRate r2 <= rampToProcessRate r1.
Proof.
  intros H1 H12 r1 r2.
  pose proof (effectiveThicknessMm_mono a t1 t2 H12) as He.
  pose proof (effectiveThicknessMm_pos (withThickness a t1) H1) as Hp.
  pose proof (brand_factor_pos (glassType a)) as Hf.
  pose proof (safeFactor_pos (conservativeness a)) as Hs.
  subst r1 r2. unfold resolve. cbn [annealSoakHours rate1_F rate2_F rampToProcessRate].
  cbn [withThickness glassType conservativeness] in *.
  set (e1 := effectiveThicknessMm (withThickness a t1)) in *.
  set (e2 := effectiveThicknessMm (withThickness a t2)) in *.
  split; [|split; [|split]].
  - unfold annealSoakHoursOf. apply Qmult_le_compat_r; [|lra].
    apply Math_max_mono_r. lra.
  - unfold rate1_F_of. apply toFahrenheitRate_mono. apply capAt_mono.
    apply coolingRate_C_anti_eff; try assumption. reflexivity.
  - unfold rate2_F_of. apply toFahrenheitRate_mono. apply capAt_mono.
    apply coolingRate_C_anti_eff; try assumption. reflexivity.
  - change (rampToProcessRateOf a e2 <= rampToProcessRateOf a e1).
    apply rampToProcessRateOf_anti. exact He.
Qed.



(** X5. For a positive thickness, Rate 1 lies in (0, 540] F/h and Rate 2
    in (0, 720] F/h (the 300 and 400 C/h caps). *)
Theorem cooling_rates_bounded (a : CalculateScheduleArgs) :
  0 < thickness a ->
  0 < rate1_F (resolve a) <= 540 /\ 0 < rate2_F (resolve a) <= 720.
Proof.
  intros Ht. destruct (rates_of_resolve a) as [E1 E2]. rewrite E1, E2.
  pose proof (effectiveThicknessMm_pos a Ht).
  pose proof (brand_factor_pos (glassType a)).
  pose proof (safeFactor_pos (conservativeness a)).
  pose proof (capAt_le 300 (coolingRate_C baseRate1_C (effectiveThicknessMm a)
                 (brand_factor (GLASS_LIBRARY (glassType a)))
                 (CONSERVATIVENESS_FACTORS (conservativeness a)))).
  pose proof (capAt_le 400 (coolingRate_C baseRate2_C (effectiveThicknessMm a)
                 (brand_factor (GLASS_LIBRARY (glassType a)))
                 (CONSERVATIVENESS_FACTORS (conservativeness a)))).
  unfold Qdiv; change (Qinv 5) with (1 # 5).
  split; split.
  - apply rate_F_pos; try assumption; reflexivity.
  - lra.
  - apply rate_F_pos; try assumption; reflexivity.
  - lra.
Qed.

Lemma cooling_rates_bounded_witness :
  0 < thickness (bullseyeArgs (1 # 4) anneal_only) /\
  (0 < rate1_F (resolve (bullseyeArgs (1 # 4) anneal_only)) <= 540 /\
   0 < rate2_F (resolve (bullseyeArgs (1 # 4) anneal_only)) <= 720).
Proof. split; [reflexivity| apply cooling_rates_bounded; reflexivity]. Defined.

(** X6. The anneal soak is never shorter than half an hour times the
    conservativeness factor, hence never shorter than 22.5 minutes. *)
Theorem anneal_soak_floor (a : CalculateScheduleArgs) :
  (1 # 2) * CONSERVATIVENESS_FACTORS (conservativeness a) <= annealSoakHours (resolve a) /\
  3 # 8 <= annealSoakHours (resolve a).
Proof.
  cbn [resolve annealSoakHours]. unfold annealSoakHoursOf.
  pose proof (Math_max_ge_l 0.5 (0.16 * effectiveThicknessMm a)).
  assert (Hs : 3 # 4 <= CONSERVATIVENESS_FACTORS (conservativeness a))
    by (destruct (conservativeness a); discriminate).
  assert ((1 # 2) * CONSERVATIVENESS_FACTORS (conservativeness a)
          <= Math_max 0.5 (0.16 * effectiveThicknessMm a) * CONSERVATIVENESS_FACTORS (conservativeness a)).
  { apply Qmult_le_compat_r; lra. }
  split; [exact H0|]. lra.
Qed.

Lemma bands_soak_tail (t : Q) : (180 + (t * 60)) / 60 == 3 + t.
Proof. field. Qed.

(** X7. In the thickness bands of the first and third versions, thicker
    glass never gets a shorter soak nor a faster Rate 1, Rate 2 or ramp
    to process. *)
Theorem bands_thicker_never_faster (t1 t2 : Q) :
  t1 <= t2 ->
  Bands.annealSoakHours t1 <= Bands.annealSoakHours t2 /\
  Bands.rate1 t2 <= Bands.rate1 t1 /\
  Bands.rate2 t2 <= Bands.rate2 t1 /\
  Bands.rampToProcessRateV3 t2 <= Bands.rampToProcessRateV3 t1.
Proof.
  intros H.
  assert (R1 : Bands.rate1 t2 <= Bands.rate1 t1).
  { unfold Bands.rate1.
    destruct (Qlt_bool t1 0.25) eqn:A1, (Qlt_bool t1 0.50) eqn:B1, (Qlt_bool t1 1.00) eqn:C1,
             (Qlt_bool t2 0.25) eqn:A2, (Qlt_bool t2 0.50) eqn:B2, (Qlt_bool t2 1.00) eqn:C2;
    rewrite ?Qlt_bool_iff, ?Qlt_bool_false_iff in *; lra. }
  split; [|split; [exact R1|split]].
  - unfold Bands.annealSoakHours.
    destruct (Qlt_bool t1 0.25) eqn:A1, (Qlt_bool t1 0.50) eqn:B1, (Qlt_bool t1 1.00) eqn:C1,
             (Qlt_bool t2 0.25) eqn:A2, (Qlt_bool t2 0.50) eqn:B2, (Qlt_bool t2 1.00) eqn:C2;
    rewrite ?bands_soak_tail;
    rewrite ?Qlt_bool_iff, ?Qlt_bool_false_iff in *; lra.
  - unfold Bands.rate2. apply capAt_mono. lra.
  - unfold Bands.rampToProcessRateV3.
    destruct (Qlt_bool t1 0.25) eqn:A1, (Qlt_bool t1 0.50) eqn:B1, (Qlt_bool t1 1.00) eqn:C1,
             (Qlt_bool t2 0.25) eqn:A2, (Qlt_bool t2 0.50) eqn:B2, (Qlt_bool t2 1.00) eqn:C2;
    rewrite ?Qlt_bool_iff, ?Qlt_bool_false_iff in *; lra.
Qed.



Lemma padStart2_ZtoString_small (n : Z) :
  (0 <= n < 100)%Z -> padStart2 (ZtoString n) = twoDigits n.
Proof.
  intros Hn.
  assert (Hall : forallb (fun k => String.eqb (padStart2 (ZtoString (Z.of_nat k)))
                                               (twoDigits (Z.of_nat k)))
                   (seq 0 100) = true) by (vm_compute; reflexivity).
  rewrite forallb_forall in Hall.
  specialize (Hall (Z.to_nat n)).
  rewrite Z2Nat.id in Hall by lia.
  apply String.eqb_eq. apply Hall. apply in_seq. lia.
Qed.

(** X8. For 0 to 99 h 59 min, [generateTimeStr] prints two hour digits,
    a colon and two minute digits. *)
Theorem generateTimeStr_two_digit_fields (m : Z) :
  (0 <= m < 6000)%Z ->
  generateTimeStr m = (twoDigits (m / 60) ++ ":" ++ twoDigits (m mod 60))%string.
Proof.
  intros Hm. unfold generateTimeStr.
  rewrite Z.rem_mod_nonneg by lia.
  rewrite !padStart2_ZtoString_small.
  - reflexivity.
  - pose proof (Z.mod_pos_bound m 60). lia.
  - split; [apply Z.div_pos; lia|]. apply Z.div_lt_upper_bound; lia.
Qed.

Lemma generateTimeStr_two_digit_fields_witness :
  (0 <= 185 < 6000)%Z /\ generateTimeStr 185 = (twoDigits (185 / 60) ++ ":" ++ twoDigits (185 mod 60))%string.
Proof. split; [lia| apply generateTimeStr_two_digit_fields; lia]. Defined.

(** X9. For a negative total that is not a whole number of hours,
    [generateTimeStr] prints the hours rounded down and a negative
    minute field: -(60 h + k) minutes gives "-(h+1):-k". *)
Theorem generateTimeStr_negative (h k : Z) :
  (0 <= h)%Z -> (0 < k < 60)%Z ->
  generateTimeStr (- (60 * h + k)) =
  (padStart2 (ZtoString (- (h + 1))) ++ ":" ++ padStart2 (ZtoString (- k)))%string.
Proof.
  intros Hh Hk. unfold generateTimeStr.
  replace (- (60 * h + k) / 60)%Z with (- (h + 1))%Z.
  2:{ apply Z.div_unique with (60 - k)%Z; lia. }
  replace (Z.rem (- (60 * h + k)) 60) with (- k)%Z.
  2:{ rewrite Z.rem_opp_l by lia. f_equal.
      rewrite Z.rem_mod_nonneg by lia.
      rewrite Z.add_comm, Z.mul_comm, Z.mod_add by lia. symmetry. apply Z.mod_small. lia. }
  reflexivity.
Qed.



(** X10. The Paragon text is the header followed by the segment blocks;
    their numbers and titles are 1-3 in anneal-only mode, 1, 3, 4, 5, 6
    with a mold dry (no segment 2), and 2-5 otherwise (no segment 1). *)
Theorem paragon_segment_numbers (a : CalculateScheduleArgs) :
  exists blocks : list (nat * string * string * string * string),
    paragon_instructions (calculateSchedule a) =
      (paragonHeader a ++ String.concat (nl ++ nl)
         (map (fun '(n, t, ra, tp, h) => paragonSeg n t ra (tempUnit (units a)) tp h) blocks))%string /\
    map (fun '(n, t, _, _, _) => (n, t)) blocks =
      (if isAnnealOnly (mode a)
       then [(1%nat, "Ramp to Soak"); (2%nat, "Anneal -> Strain"); (3%nat, "Strain -> Cool")]
       else match moldDryGate a with
            | Some _ => [(1%nat, "Mold Dry"); (3%nat, "Process"); (4%nat, "Cool to Anneal");
                         (5%nat, "Anneal -> Strain"); (6%nat, "Strain -> Cool")]
            | None => [(2%nat, "Process"); (3%nat, "Cool to Anneal");
                       (4%nat, "Anneal -> Strain"); (5%nat, "Strain -> Cool")]
            end)%string.
Proof.
  unfold calculateSchedule, paragonInstructions, paragonHeader. cbn [paragon_instructions].
  destruct (isAnnealOnly (mode a)); cbv beta iota zeta delta [negb];
    [|destruct (moldDryGate a)]; cbv beta iota zeta.
  - eexists [(_, _, _, _, _); (_, _, _, _, _); (_, _, _, _, _)].
    split; [|reflexivity].
    cbv beta iota zeta delta [map String.concat]. rewrite !append_assoc_str. reflexivity.
  - eexists [(_, _, _, _, _); (_, _, _, _, _); (_, _, _, _, _); (_, _, _, _, _); (_, _, _, _, _)].
    split; [|reflexivity].
    cbv beta iota zeta delta [map String.concat]. rewrite !append_assoc_str. reflexivity.
  - eexists [(_, _, _, _, _); (_, _, _, _, _); (_, _, _, _, _); (_, _, _, _, _)].
    split; [|reflexivity].
    cbv beta iota zeta delta [map String.concat]. rewrite !append_assoc_str. reflexivity.
Qed.





Lemma combine_map_pt (l : list AnnealingSchedulePoint) :
  combine (map time l) (map temp l) = map pointXY l.
Proof. induction l as [|p l IH]; cbn; [reflexivity|]. rewrite IH. reflexivity. Qed.

Lemma firstn_snoc_nth {A : Type} (l : list A) (m : nat) (d : A) :
  (m < length l)%nat -> firstn (S m) l = firstn m l ++ [nth m l d].
Proof.
  revert m. induction l as [|a l IH]; intros m Hm; cbn in Hm; [lia|].
  destruct m as [|m]; [reflexivity|].
  change (firstn (S (S m)) (a :: l)) with (a :: firstn (S m) l).
  change (nth (S m) (a :: l) d) with (nth m l d).
  change (firstn (S m) (a :: l)) with (a :: firstn m l).
  rewrite (IH m) by lia. reflexivity.
Qed.

Lemma nth_skipn' {A : Type} (l : list A) (j m : nat) (d : A) :
  nth m (skipn j l) d = nth (j + m) l d.
Proof.
  revert l. induction j as [|j IH]; intros l; [reflexivity|].
  destruct l as [|a l]; cbn; [destruct m; reflexivity|]. apply IH.
Qed.

Lemma slice_snoc (ps : list AnnealingSchedulePoint) (j k : nat) :
  (j <= k)%nat -> (S k < length ps)%nat ->
  pointSlice ps j (S k) = pointSlice ps j k ++ [Chart.pointAt ps (S k)].
Proof.
  intros Hj Hk. unfold pointSlice, Chart.pointAt.
  replace (S (S k) - j)%nat with (S (S k - j)) by lia.
  rewrite (firstn_snoc_nth _ _ {| time := 0; temp := 0; label := None; segment_type := off |}).
  - rewrite nth_skipn'. do 2 f_equal. f_equal. lia.
  - rewrite length_skipn. lia.
Qed.

Lemma slice_single (ps : list AnnealingSchedulePoint) (k : nat) :
  (k < length ps)%nat -> pointSlice ps k k = [Chart.pointAt ps k].
Proof.
  intros Hk. unfold pointSlice, Chart.pointAt. replace (S k - k)%nat with 1%nat by lia.
  rewrite (firstn_snoc_nth _ 0 {| time := 0; temp := 0; label := None; segment_type := off |}).
  - rewrite nth_skipn', Nat.add_0_r. reflexivity.
  - rewrite length_skipn. lia.
Qed.

Lemma slice_last (ps : list AnnealingSchedulePoint) (j k : nat) :
  (j <= k)%nat -> (k < length ps)%nat ->
  last (map pointXY (pointSlice ps j k)) (0, 0) = pointXY (Chart.pointAt ps k) /\ pointSlice ps j k <> [].
Proof.
  intros Hj Hk. destruct j as [|j'] eqn:Ej; [destruct k as [|k]|].
  - rewrite slice_single by lia. split; [reflexivity|discriminate].
  - rewrite slice_snoc by lia. rewrite map_app; cbn [map]; rewrite last_last. split; [reflexivity|].
    destruct (pointSlice ps 0 k); discriminate.
  - destruct (Nat.eq_dec (S j') k) as [<-|Hne].
    + rewrite slice_single by lia. split; [reflexivity|discriminate].
    + destruct k as [|k]; [lia|]. rewrite slice_snoc by lia.
      rewrite map_app; cbn [map]; rewrite last_last. split; [reflexivity|].
      destruct (pointSlice ps (S j') k); discriminate.
Qed.

Lemma firstn_S_pointAt (ps : list AnnealingSchedulePoint) (k : nat) :
  (S k < length ps)%nat -> firstn (S (S k)) ps = firstn (S k) ps ++ [Chart.pointAt ps (S k)].
Proof. intros Hk. apply firstn_snoc_nth. exact Hk. Qed.

Lemma chained_ext (L : list (list (Q * Q))) (c : list (Q * Q)) (x : Q * Q) :
  c <> [] -> Chart.chained (L ++ [c]) -> Chart.chained (L ++ [c ++ [x]]).
Proof.
  intros Hc. induction L as [|l L IH]; [intros _; exact I|].
  destruct L as [|l2 L]; cbn [app Chart.chained]; intros [H1 H2].
  - split; [|exact I]. destruct c; [contradiction|exact H1].
  - split; [exact H1|]. apply IH. exact H2.
Qed.

Lemma chained_snoc2 (L : list (list (Q * Q))) (c d : list (Q * Q)) :
  Chart.chained (L ++ [c]) -> last c (0, 0) = hd (0, 0) d -> Chart.chained ((L ++ [c]) ++ [d]).
Proof.
  intros H Hcd. rewrite <- app_assoc. cbn [app]. induction L as [|l L IH].
  - cbn. split; [exact Hcd|exact I].
  - destruct L as [|l2 L]; cbn [app Chart.chained] in *; destruct H as [H1 H2].
    + split; [exact H1|]. split; [exact Hcd|exact I].
    + split; [exact H1|]. apply IH. exact H2.
Qed.

Lemma join_snoc (L : list (list (Q * Q))) (d : list (Q * Q)) :
  L <> [] -> Chart.joinPolylines (L ++ [d]) = Chart.joinPolylines L ++ tl d.
Proof.
  destruct L as [|l L]; [contradiction|]. intros _. cbn [app Chart.joinPolylines].
  rewrite map_app, concat_app. cbn. rewrite !app_nil_r, app_assoc. reflexivity.
Qed.

Lemma join_ext (L : list (list (Q * Q))) (c : list (Q * Q)) (x : Q * Q) :
  c <> [] -> Chart.joinPolylines (L ++ [c ++ [x]]) = Chart.joinPolylines (L ++ [c]) ++ [x].
Proof.
  intros Hc. destruct L as [|l L].
  - cbn. rewrite !app_nil_r. reflexivity.
  - rewrite !join_snoc by discriminate. rewrite <- app_assoc. f_equal.
    destruct c; [contradiction|reflexivity].
Qed.

Lemma chainInv_step (ps : list AnnealingSchedulePoint) (k : nat) (st : Chart.LoopState) :
  (S k < length ps)%nat -> chainInv ps k st -> chainInv ps (S k) (Chart.loopBody ps st k).
Proof.
  intros Hk (j & Hj & HX & HY & Hc & Hjn).
  destruct (slice_last ps j k Hj ltac:(lia)) as [Hlast Hne].
  unfold Chart.loopBody.
  destruct (String.eqb _ _).
  - exists j. cbn [Chart.currentX Chart.currentY Chart.traces]. rewrite slice_snoc by lia.
    rewrite HX, HY, !map_app. cbn [map]. split; [lia|]. split; [reflexivity|]. split; [reflexivity|]. split.
    + apply chained_ext; [destruct (pointSlice ps j k); [contradiction|discriminate]|exact Hc].
    + rewrite join_ext by (destruct (pointSlice ps j k); [contradiction|discriminate]).
      rewrite Hjn, firstn_S_pointAt by exact Hk. rewrite map_app. reflexivity.
  - unfold Chart.pushTrace. exists k. cbn [Chart.currentX Chart.currentY Chart.traces]. rewrite slice_snoc, slice_single by lia.
    split; [lia|]. split; [reflexivity|]. split; [reflexivity|]. split.
    + rewrite map_app. cbn [map]. change (Chart.polyline ?t) with (combine (Chart.x t) (Chart.y t)).
      cbn [Chart.x Chart.y]. rewrite HX, HY, combine_map_pt.
      apply chained_snoc2; [exact Hc|]. rewrite Hlast. reflexivity.
    + rewrite map_app. cbn [map]. change (Chart.polyline ?t) with (combine (Chart.x t) (Chart.y t)).
      cbn [Chart.x Chart.y]. rewrite HX, HY, combine_map_pt.
      rewrite join_snoc by (destruct (map Chart.polyline (Chart.traces st)); discriminate).
      rewrite Hjn, firstn_S_pointAt by exact Hk. rewrite !map_app. reflexivity.
Qed.

Lemma chainInv_fold (ps : list AnnealingSchedulePoint) (m : nat) :
  forall k st, (k + m < length ps)%nat -> chainInv ps k st ->
  chainInv ps (k + m) (fold_left (Chart.loopBody ps) (seq k m) st).
Proof.
  induction m as [|m IH]; intros k st Hk H.
  - rewrite Nat.add_0_r. exact H.
  - cbn [seq fold_left]. replace (k + S m)%nat with (S k + m)%nat by lia.
    apply IH; [lia|]. apply chainInv_step; [lia|exact H].
Qed.

(** X19. The chart traces, in the order they are built, follow the
    waypoints: each starts at the last point of the previous one, and
    together they pass through every waypoint once, in order. *)
Theorem chart_traces_follow_points (ps : list AnnealingSchedulePoint) :
  ps <> [] ->
  Chart.chained (map Chart.polyline (Chart.unsortedTraces ps)) /\
  Chart.joinPolylines (map Chart.polyline (Chart.unsortedTraces ps)) = map pointXY ps.
Proof.
  intros Hne. destruct ps as [|p0 rest]; [contradiction|].
  unfold Chart.unsortedTraces. cbv iota zeta.
  set (ps := p0 :: rest).
  set (st0 := {| Chart.traces := []; Chart.legendsShown := [];
                 Chart.currentX := [time p0]; Chart.currentY := [temp p0];
                 Chart.currentIndices := [0%nat];
                 Chart.currentColor := _; Chart.currentName := _ |}).
  assert (Hl : (0 < length ps)%nat) by (cbn; lia).
  assert (H0 : chainInv ps 0 st0).
  { exists 0%nat. rewrite slice_single by exact Hl.
    split; [lia|]. unfold Chart.pointAt, ps. cbn. repeat split. }
  pose proof (chainInv_fold ps (length ps - 1) 0 st0 ltac:(lia) H0) as (j & Hj & HX & HY & Hc & Hjn).
  cbn [Nat.add] in *.
  unfold Chart.pushTrace. cbn [fst]. rewrite map_app. cbn [map].
  change (Chart.polyline ?t) with (combine (Chart.x t) (Chart.y t)). cbn [Chart.x Chart.y].
  rewrite HX, HY, combine_map_pt. split; [exact Hc|].
  rewrite Hjn. replace (S (length ps - 1)) with (length ps) by lia.
  rewrite firstn_all. reflexivity.
Qed.




Lemma has_In (seen : list string) (n : string) : Chart.has seen n = true <-> In n seen.
Proof.
  unfold Chart.has. rewrite existsb_exists. split.
  - intros [m [Hm E]]. apply String.eqb_eq in E. subst. exact Hm.
  - intros H. exists n. split; [exact H|]. apply String.eqb_refl.
Qed.

Lemma legendOK_snoc (ts : list Chart.Trace) : forall (seen : list string) (t : Chart.Trace),
  legendOK seen ts ->
  Chart.showlegend t = negb (Chart.has (rev (map Chart.name ts) ++ seen) (Chart.name t)) ->
  legendOK seen (ts ++ [t]).
Proof.
  induction ts as [|u ts IH]; intros seen t H Ht; cbn in *.
  - split; [exact Ht|exact I].
  - destruct H as [H1 H2]. split; [exact H1|]. apply IH; [exact H2|].
    rewrite <- app_assoc in Ht. exact Ht.
Qed.

Lemma legendInv_step (ps : list AnnealingSchedulePoint) (st : Chart.LoopState) (i : nat) :
  legendInv st -> legendInv (Chart.loopBody ps st i).
Proof.
  intros [H1 H2]. unfold Chart.loopBody.
  destruct (String.eqb _ _); [split; assumption|].
  cbv beta iota zeta delta [Chart.pushTrace legendInv]. cbn [Chart.traces Chart.legendsShown]. split.
  - apply legendOK_snoc; [exact H1|]. cbn [Chart.showlegend Chart.name].
    rewrite app_nil_r, <- H2. reflexivity.
  - rewrite map_app, rev_app_distr, H2. reflexivity.
Qed.

Lemma fold_left_inv {A B : Type} (f : A -> B -> A) (P : A -> Prop) :
  (forall a b, P a -> P (f a b)) -> forall l a, P a -> P (fold_left f l a).
Proof. intros Hf l. induction l as [|b l IH]; intros a Ha; [exact Ha|]. apply IH, Hf, Ha. Qed.

Lemma legendOK_unsorted (ps : list AnnealingSchedulePoint) : legendOK [] (Chart.unsortedTraces ps).
Proof.
  destruct ps as [|p0 rest]; [exact I|].
  unfold Chart.unsortedTraces. cbv iota zeta.
  set (ps := p0 :: rest).
  match goal with |- context [fold_left (Chart.loopBody ps) ?l ?s0] =>
    assert (H : legendInv (fold_left (Chart.loopBody ps) l s0)) end.
  { apply fold_left_inv; [|split; [exact I|reflexivity]].
    intros st i Hst. apply legendInv_step. exact Hst. }
  destruct H as [H1 H2]. unfold Chart.pushTrace. cbn [fst].
  apply legendOK_snoc; [exact H1|]. cbn [Chart.showlegend Chart.name].
  rewrite app_nil_r, <- H2. reflexivity.
Qed.

Lemma legendOK_props (ts : list Chart.Trace) : forall seen : list string,
  legendOK seen ts ->
  NoDup (map Chart.name (filter Chart.showlegend ts)) /\
  (forall t, In t (filter Chart.showlegend ts) -> ~ In (Chart.name t) seen) /\
  (forall t, In t ts -> In (Chart.name t) seen \/
     exists t', In t' ts /\ Chart.showlegend t' = true /\ Chart.name t' = Chart.name t).
Proof.
  induction ts as [|u ts IH]; intros seen H.
  - split; [constructor|]. split; intros t Ht; destruct Ht.
  - destruct H as [Hu H]. destruct (IH _ H) as (N & F & C).
    split; [|split].
    + cbn [filter]. destruct (Chart.showlegend u) eqn:Es; cbn [map]; [|exact N].
      constructor; [|exact N].
      intros Hin. apply in_map_iff in Hin. destruct Hin as [t [Et Ht]].
      apply (F t Ht). rewrite Et. left. reflexivity.
    + intros t Ht. cbn [filter] in Ht.
      destruct (Chart.showlegend u) eqn:Es.
      * destruct Ht as [Eu|Ht].
        -- subst t. intros Hin. apply has_In in Hin. rewrite Hin in Hu. cbn in Hu. congruence.
        -- intros Hin. apply (F t Ht). right. exact Hin.
      * intros Hin. apply (F t Ht). right. exact Hin.
    + intros t Ht. destruct Ht as [Eu|Ht].
      * subst t. destruct (Chart.showlegend u) eqn:Es.
        -- right. exists u. split; [left; reflexivity|split; [exact Es|reflexivity]].
        -- left. apply has_In. destruct (Chart.has seen (Chart.name u)); [reflexivity|].
           cbn in Hu. congruence.
      * destruct (C t Ht) as [[E|Hin]|(t' & H1 & H2 & H3)].
        -- destruct (Chart.showlegend u) eqn:Es.
           ++ right. exists u. split; [left; reflexivity|]. split; [exact Es|exact E].
           ++ left. rewrite <- E. apply has_In.
              destruct (Chart.has seen (Chart.name u)); [reflexivity|]. cbn in Hu. congruence.
        -- left. exact Hin.
        -- right. exists t'. split; [right; exact H1|]. split; assumption.
Qed.

Lemma insertBy_perm {A : Type} (cmp : A -> A -> Z) (a : A) (l : list A) :
  Permutation (Chart.insertBy cmp a l) (a :: l).
Proof.
  induction l as [|b l IH]; cbn; [reflexivity|].
  destruct (Z.ltb (cmp a b) 0); [reflexivity|].
  rewrite IH. apply perm_swap.
Qed.

Lemma sortBy_perm {A : Type} (cmp : A -> A -> Z) (l : list A) :
  Permutation (Chart.sortBy cmp l) l.
Proof.
  unfold Chart.sortBy.
  assert (G : forall acc, Permutation (fold_left (fun acc a => Chart.insertBy cmp a acc) l acc) (l ++ acc)).
  { induction l as [|a l IH]; intros acc; cbn; [reflexivity|].
    rewrite IH, insertBy_perm. apply Permutation_sym, Permutation_middle. }
  rewrite G, app_nil_r. reflexivity.
Qed.

Lemma perm_filter {A : Type} (f : A -> bool) (l l' : list A) :
  Permutation l l' -> Permutation (filter f l) (filter f l').
Proof.
  induction 1 as [|a l l' _ IH|a b l|l l' l'' _ IH1 _ IH2]; cbn.
  - constructor.
  - destruct (f a); [constructor|]; exact IH.
  - destruct (f a), (f b); try constructor; reflexivity.
  - rewrite IH1. exact IH2.
Qed.

(** X20. Each trace name appears in the chart legend exactly once. *)
Theorem chart_legend_once (ps : list AnnealingSchedulePoint) :
  let ts := Chart.chartTraces ps in
  NoDup (map Chart.name (filter Chart.showlegend ts)) /\
  (forall t, In t ts ->
     exists t', In t' ts /\ Chart.showlegend t' = true /\ Chart.name t' = Chart.name t).
Proof.
  cbv zeta. unfold Chart.chartTraces.
  pose proof (sortBy_perm Chart.indefiniteLast (Chart.unsortedTraces ps)) as P.
  destruct (legendOK_props _ [] (legendOK_unsorted ps)) as (N & _ & C).
  split.
  - eapply Permutation_NoDup; [|exact N].
    apply Permutation_map, perm_filter, Permutation_sym, P.
  - intros t Ht. apply (Permutation_in _ P) in Ht.
    destruct (C t Ht) as [[]|(t' & H1 & H2 & H3)].
    exists t'. split; [|split; assumption].
    apply (Permutation_in _ (Permutation_sym P)). exact H1.
Qed.

(** ** Instances of the further properties at concrete inputs *)

Lemma mold_dry_shifts_later_points_witness :
  moldDryGate castDryArgs = Some 2 /\
  Forall2 (fun p q => time p == time q + 2 /\ temp p = temp q
                      /\ label p = label q /\ segment_type p = segment_type q)
    (skipn 3 (points (calculateSchedule castDryArgs)))
    (skipn 1 (points (calculateSchedule (withMoldDryHours castDryArgs None)))).
Proof.
  split; [reflexivity|]. apply (mold_dry_shifts_later_points castDryArgs 2). reflexivity.
Defined.

Lemma thicker_glass_never_faster_witness :
  0 < 1 # 4 /\ 1 # 4 <= 1 # 2 /\
  (let r1 := resolve (withThickness (bullseyeArgs (1 # 4) anneal_only) (1 # 4)) in
   let r2 := resolve (withThickness (bullseyeArgs (1 # 4) anneal_only) (1 # 2)) in
   annealSoakHours r1 <= annealSoakHours r2 /\ rate1_F r2 <= rate1_F r1 /\
   rate2_F r2 <= rate2_F r1 /\ rampToProcessRate r2 <= rampToProcessRate r1).
Proof.
  split; [lra|split; [lra|]].
  apply (thicker_glass_never_faster (bullseyeArgs (1 # 4) anneal_only) (1 # 4) (1 # 2)); lra.
Defined.

Lemma bands_thicker_never_faster_witness :
  0.3 <= 0.6 /\
  Bands.annealSoakHours 0.3 <= Bands.annealSoakHours 0.6 /\
  Bands.rate1 0.6 <= Bands.rate1 0.3 /\
  Bands.rate2 0.6 <= Bands.rate2 0.3 /\
  Bands.rampToProcessRateV3 0.6 <= Bands.rampToProcessRateV3 0.3.
Proof. split; [lra|]. apply bands_thicker_never_faster. lra. Defined.

Lemma generateTimeStr_negative_witness :
  (0 <= 0)%Z /\ (0 < 30 < 60)%Z /\
  generateTimeStr (- (60 * 0 + 30)) =
  (padStart2 (ZtoString (- (0 + 1))) ++ ":" ++ padStart2 (ZtoString (- 30)))%string.
Proof.
  split; [lia|split; [lia|]]. apply generateTimeStr_negative; lia.
Defined.

Lemma handleCalculate_args_shape_witness :
  exists a, App.handleCalculateArgs imperialForm = Some a /\
  processHoldIndefinite a = None /\
  (isAnnealOnly (App.scheduleMode imperialForm) = true ->
   customProcessTemp a = None /\ customProcessHoldMins a = None /\
   customProcessRamp a = None /\ moldDryHours a = None /\ moldDryTemp a = None) /\
  (isCast (App.scheduleMode imperialForm) = false -> moldDryHours a = None /\ moldDryTemp a = None).
Proof.
  eexists. split; [reflexivity|].
  apply handleCalculate_args_shape. reflexivity.
Defined.

Lemma toggle_twice_from_metric_witness :
  let s2 := App.toggleUnits (App.toggleUnits metricForm) in
  App.units s2 = metric /\
  App.fieldEqv (App.thickness s2) (App.thickness metricForm) /\
  App.fieldEqv (App.customAnneal s2) (App.customAnneal metricForm) /\
  App.fieldEqv (App.customStrain s2) (App.customStrain metricForm) /\
  App.fieldEqv (App.processTemp s2) (App.processTemp metricForm) /\
  App.fieldEqv (App.processRamp s2) (App.processRamp metricForm) /\
  App.fieldEqv (App.moldDryTemp s2) (App.moldDryTemp metricForm) /\
  App.processHold s2 = App.processHold metricForm /\
  App.moldDryHours s2 = App.moldDryHours metricForm.
Proof.
  apply toggle_twice_from_metric.
  - reflexivity.
  - exact I.
  - exact I.
  - exists 804%Z. reflexivity.
  - exists 167%Z. reflexivity.
  - exact I.
  - intros v E. injection E as <-. exists 64%Z. reflexivity.
  - repeat split; vm_compute; reflexivity.
Defined.

Lemma toggle_twice_from_imperial_witness :
  let s2 := App.toggleUnits (App.toggleUnits imperialForm) in
  App.units s2 = imperial /\
  App.fieldWithin (1 # 400) (App.thickness s2) (App.thickness imperialForm) /\
  App.fieldWithin 1 (App.customAnneal s2) (App.customAnneal imperialForm) /\
  App.fieldWithin 1 (App.customStrain s2) (App.customStrain imperialForm) /\
  App.fieldWithin 1 (App.processTemp s2) (App.processTemp imperialForm) /\
  App.fieldWithin 1 (App.processRamp s2) (App.processRamp imperialForm) /\
  App.fieldWithin 1 (App.moldDryTemp s2) (App.moldDryTemp imperialForm) /\
  App.processHold s2 = App.processHold imperialForm /\
  App.moldDryHours s2 = App.moldDryHours imperialForm.
Proof.
  apply toggle_twice_from_imperial.
  - reflexivity.
  - exact I.
  - exact I.
  - exists 1480%Z. reflexivity.
  - exists 300%Z. reflexivity.
  - exists 221%Z. reflexivity.
  - repeat split; vm_compute; reflexivity.
Defined.

Lemma toggle_recalc_agrees_witness :
  App.result (App.handleCalculate (App.toggleUnits (App.handleCalculate metricForm))) =
  App.result (App.toggleUnits (App.handleCalculate metricForm)).
Proof.
  apply toggle_recalc_agrees.
  - vm_compute. discriminate.
  - vm_compute. intros [H _]. discriminate H.
Defined.

Lemma toggle_skips_custom_check_witness :
  App.handleCalculateArgs (App.toggleUnits customForm) = None /\
  exists a, glassType a = Custom /\ customAnneal a = None /\
    App.result (App.toggleUnits customForm) = Some (calculateSchedule a) /\
    App.chartVersion (App.toggleUnits customForm) = S (App.chartVersion customForm).
Proof.
  apply (toggle_skips_custom_check customForm
           (calculateSchedule (bullseyeArgs (1 # 4) anneal_only)) (0.25));
    reflexivity.
Defined.

Lemma toggle_empty_thickness_keeps_result_witness :
  App.result (App.toggleUnits clearedThicknessForm) = App.result clearedThicknessForm /\
  App.chartVersion (App.toggleUnits clearedThicknessForm) = App.chartVersion clearedThicknessForm /\
  App.units (App.toggleUnits clearedThicknessForm) = App.otherUnits (App.units clearedThicknessForm).
Proof. apply toggle_empty_thickness_keeps_result. reflexivity. Defined.

Lemma reachable_no_indefinite_witness :
  reachable (App.toggleUnits (App.handleCalculate imperialForm)) /\
  noIndefinite (App.toggleUnits (App.handleCalculate imperialForm)).
Proof.
  assert (H : reachable (App.toggleUnits (App.handleCalculate imperialForm))).
  { apply (reach_step (App.handleCalculate imperialForm)); [|apply step_toggle].
    apply (reach_step imperialForm); [|apply step_calculate].
    apply (reach_step App.initialState); [exact reach_init|].
    apply step_edit; reflexivity. }
  split; [exact H|]. apply reachable_no_indefinite. exact H.
Defined.

Lemma chart_traces_follow_points_witness :
  let ps := points (calculateSchedule castDryArgs) in
  Chart.chained (map Chart.polyline (Chart.unsortedTraces ps)) /\
  Chart.joinPolylines (map Chart.polyline (Chart.unsortedTraces ps)) = map pointXY ps.
Proof.
  apply chart_traces_follow_points. vm_compute. discriminate.
Defined.
